(** * ELD log sheet renderer: a shallow embedding of
      frontend/src/components/LogSheets.js

    The component draws one FMCSA "Drivers Daily Log" sheet per trip day on an
    HTML canvas.  The embedding follows the source function by function:

    - JavaScript numbers are modelled as exact rationals extended with
      [NaN], [+Infinity] and [-Infinity] (no rounding, one zero);
    - the canvas 2D context is a record of the style properties the source
      assigns, and every drawing call is logged, in order, together with the
      style in force when it is issued;
    - a thrown exception ([TypeError]) aborts the rest of the computation and
      keeps what was drawn before it. *)

From Stdlib Require Import ZArith QArith Qround Qabs Lia List String Ascii Bool.
From Stdlib Require Import DecimalString.
Import ListNotations.

Local Open Scope Z_scope.

(** ** JavaScript numbers *)

Module JSNum.

(** A JavaScript Number: a finite value, one of the two infinities, or NaN.
    Finite values are exact rationals and the two zeros are identified. *)
Inductive number : Type :=
| Fin (q : Q)
| PInf
| NInf
| NaN.

(** Finite results are kept in lowest terms, so that equal numbers are
    syntactically equal. *)
Definition fin (q : Q) : number := Fin (Qred q).

Definition of_Z (z : Z) : number := Fin (inject_Z z).

Definition nneg (a : number) : number :=
  match a with
  | Fin q => fin (- q)
  | PInf => NInf
  | NInf => PInf
  | NaN => NaN
  end.

(** [a + b] *)
Definition nadd (a b : number) : number :=
  match a, b with
  | NaN, _ | _, NaN => NaN
  | Fin p, Fin q => fin (p + q)
  | PInf, NInf | NInf, PInf => NaN
  | PInf, _ | _, PInf => PInf
  | NInf, _ | _, NInf => NInf
  end.

(** [a - b] *)
Definition nsub (a b : number) : number :=
  match a, b with
  | NaN, _ | _, NaN => NaN
  | Fin p, Fin q => fin (p - q)
  | PInf, PInf | NInf, NInf => NaN
  | PInf, _ | _, NInf => PInf
  | NInf, _ | _, PInf => NInf
  end.

(** Sign of a finite value: [Eq] for zero. *)
Definition qsign (q : Q) : comparison := Qcompare q 0.

Definition inf_signed (pos : bool) : number := if pos then PInf else NInf.

(** An infinity multiplied by a finite value. *)
Definition inf_times (pos : bool) (q : Q) : number :=
  match qsign q with
  | Eq => NaN
  | Gt => inf_signed pos
  | Lt => inf_signed (negb pos)
  end.

(** [a * b] *)
Definition nmul (a b : number) : number :=
  match a, b with
  | NaN, _ | _, NaN => NaN
  | Fin p, Fin q => fin (p * q)
  | PInf, Fin q | Fin q, PInf => inf_times true q
  | NInf, Fin q | Fin q, NInf => inf_times false q
  | PInf, PInf | NInf, NInf => PInf
  | PInf, NInf | NInf, PInf => NInf
  end.

(** [a / b]; a zero divisor is taken as [+0]. *)
Definition ndiv (a b : number) : number :=
  match a, b with
  | NaN, _ | _, NaN => NaN
  | Fin p, Fin q =>
      match qsign q with
      | Eq => match qsign p with
              | Eq => NaN
              | Gt => PInf
              | Lt => NInf
              end
      | _ => fin (p / q)
      end
  | Fin _, PInf | Fin _, NInf => Fin 0
  | PInf, Fin q => match qsign q with Lt => NInf | _ => PInf end
  | NInf, Fin q => match qsign q with Lt => PInf | _ => NInf end
  | _, _ => NaN
  end.

(** Numerical equality of two numbers ([NaN] is only related to itself here:
    this is the identity of values, not the JavaScript [===]). *)
Definition num_eq (a b : number) : Prop :=
  match a, b with
  | Fin p, Fin q => p == q
  | PInf, PInf | NInf, NInf | NaN, NaN => True
  | _, _ => False
  end.

Definition is_finite (a : number) : bool :=
  match a with Fin _ => true | _ => false end.

Definition is_nan (a : number) : bool :=
  match a with NaN => true | _ => false end.

(** Boolean equality of values (on lowest-terms representatives). *)
Definition num_eqb (a b : number) : bool :=
  match a, b with
  | Fin p, Fin q => Qeq_bool p q
  | PInf, PInf | NInf, NInf | NaN, NaN => true
  | _, _ => false
  end.

End JSNum.
Export JSNum.

(** ** Strings: [String.prototype.split] and [Number(string)] *)

Module JSString.

(** [s.split(sep)] for a one-character separator: never the empty array. *)
Fixpoint split (sep : ascii) (s : string) : list string :=
  match s with
  | EmptyString => [EmptyString]
  | String c r =>
      if Ascii.eqb c sep then EmptyString :: split sep r
      else match split sep r with
           | h :: t => String c h :: t
           | [] => [String c EmptyString]
           end
  end.

Definition code (c : ascii) : Z := Z.of_nat (nat_of_ascii c).

(** StrWhiteSpaceChar, for code units below 256: TAB, LF, VT, FF, CR, SP,
    NBSP. *)
Definition is_space (c : ascii) : bool :=
  let n := code c in
  ((9 <=? n) && (n <=? 13)) || (n =? 32) || (n =? 160).

Fixpoint drop_space (l : list ascii) : list ascii :=
  match l with
  | c :: r => if is_space c then drop_space r else l
  | [] => []
  end.

Definition trim (l : list ascii) : list ascii :=
  rev (drop_space (rev (drop_space l))).

(** Value of a digit in the given radix (2, 8, 10 or 16). *)
Definition digit_of (radix : Z) (c : ascii) : option Z :=
  let n := code c in
  let v := if (48 <=? n) && (n <=? 57) then n - 48
           else if (97 <=? n) && (n <=? 102) then n - 87
           else if (65 <=? n) && (n <=? 70) then n - 55
           else radix in
  if v <? radix then Some v else None.

(** The longest prefix of digits, and what follows it. *)
Fixpoint span_digits (radix : Z) (l : list ascii) : list Z * list ascii :=
  match l with
  | [] => ([], [])
  | c :: r =>
      match digit_of radix c with
      | Some d => let (ds, rest) := span_digits radix r in (d :: ds, rest)
      | None => ([], l)
      end
  end.

Definition digits_value (radix : Z) (ds : list Z) : Z :=
  fold_left (fun acc d => acc * radix + d) ds 0.

(** One digit at least, and nothing after the digits. *)
Definition all_digits (radix : Z) (l : list ascii) : option Z :=
  match span_digits radix l with
  | ((_ :: _) as ds, []) => Some (digits_value radix ds)
  | _ => None
  end.

(** ExponentPart_opt: [None] is a syntax error. *)
Definition exponent_part (l : list ascii) : option Z :=
  match l with
  | [] => Some 0
  | c :: r =>
      if Ascii.eqb c "e"%char || Ascii.eqb c "E"%char then
        match r with
        | s :: r' =>
            if Ascii.eqb s "+"%char then all_digits 10 r'
            else if Ascii.eqb s "-"%char then option_map Z.opp (all_digits 10 r')
            else all_digits 10 r
        | [] => None
        end
      else None
  end.

Definition scale (mant : Z) (e : Z) : number :=
  fin (inject_Z mant * Qpower (10 # 1) e).

(** StrUnsignedDecimalLiteral *)
Definition unsigned_decimal (l : list ascii) : number :=
  if list_eq_dec ascii_dec l (list_ascii_of_string "Infinity"%string) then PInf
  else
    let (ip, r1) := span_digits 10 l in
    match r1 with
    | "."%char :: r2 =>
        let (fp, r3) := span_digits 10 r2 in
        match ip, fp with
        | [], [] => NaN
        | _, _ =>
            match exponent_part r3 with
            | Some e => scale (digits_value 10 (ip ++ fp)%list)
                              (e - Z.of_nat (List.length fp))
            | None => NaN
            end
        end
    | _ =>
        match ip with
        | [] => NaN
        | _ => match exponent_part r1 with
               | Some e => scale (digits_value 10 ip) e
               | None => NaN
               end
        end
    end.

(** NonDecimalIntegerLiteral: [0x], [0o], [0b] and their capitals. *)
Definition non_decimal (l : list ascii) : option number :=
  match l with
  | "0"%char :: p :: r =>
      let radix := if Ascii.eqb p "x"%char || Ascii.eqb p "X"%char then Some 16
                   else if Ascii.eqb p "o"%char || Ascii.eqb p "O"%char then Some 8
                   else if Ascii.eqb p "b"%char || Ascii.eqb p "B"%char then Some 2
                   else None in
      match radix with
      | Some b => Some match all_digits b r with
                       | Some v => of_Z v
                       | None => NaN
                       end
      | None => None
      end
  | _ => None
  end.

(** [Number(s)] on a string (StringToNumber): white space is trimmed, the
    empty string is 0, anything outside the numeric grammar is [NaN]. *)
Definition Number (s : string) : number :=
  match trim (list_ascii_of_string s) with
  | [] => Fin 0
  | (c :: r) as t =>
      match non_decimal t with
      | Some n => n
      | None =>
          if Ascii.eqb c "+"%char then unsigned_decimal r
          else if Ascii.eqb c "-"%char then nneg (unsigned_decimal r)
          else unsigned_decimal t
      end
  end.

End JSString.
Export JSString.

(** Source-like arithmetic on numbers; integer literals are numbers. *)
Coercion of_Z : Z >-> number.
Declare Scope num_scope.
Delimit Scope num_scope with num.
Bind Scope num_scope with number.
Infix "+" := nadd : num_scope.
Infix "-" := nsub : num_scope.
Infix "*" := nmul : num_scope.
Infix "/" := ndiv : num_scope.

Local Open Scope string_scope.

(** ** Number formatting *)

(** Decimal digits of a non-negative integer, as [Number::toString] prints an
    integer: ["0"] for zero, no leading zeros otherwise. *)
Definition dec (n : Z) : string := NilZero.string_of_uint (N.to_uint (Z.to_N n)).

Section Formatting.

(** [Number::toString] on finite values of 10^21 and more (exponent
    notation), to which [toFixed] defers; it is a property of the host's
    double-to-string conversion. *)
Variable bigToString : Q -> string.

(** [x.toFixed(2)]: the nearest integer [n] to [x * 100], the larger one on a
    tie, printed with the point before its last two digits. *)
Definition toFixed2 (x : number) : string :=
  match x with
  | NaN => "NaN"
  | PInf => "Infinity"
  | NInf => "-Infinity"
  | Fin q =>
      let s := if Qlt_le_dec q 0 then "-" else "" in
      let a := Qabs q in
      if Qle_bool (inject_Z (10 ^ 21)) a then s ++ bigToString a
      else
        let n := Qfloor (a * inject_Z 100 + (1 # 2)) in
        s ++ dec (n / 100) ++ "." ++ dec (n mod 100 / 10) ++ dec (n mod 10)
  end.

End Formatting.

(** ** The canvas 2D context *)

Module Canvas.

Inductive pathcmd : Type :=
| MoveTo (x y : number)
| LineTo (x y : number).

(** What a drawing call puts on the surface, with the style it is drawn
    in. *)
Inductive prim : Type :=
| ClearRect (x y w h : number)
| FillText (text : string) (x y : number) (fill font : string)
| FillRect (x y w h : number) (fill : string)
| StrokeRect (x y w h : number) (stroke : string) (width : number)
| Stroke (path : list pathcmd) (stroke : string) (width : number).

(** The properties of [ctx] that the source assigns, and the current path. *)
Record Ctx : Type := mkCtx {
  fillStyle : string;
  strokeStyle : string;
  lineWidth : number;
  font : string;
  path : list pathcmd
}.

(** The state of a context just obtained from a new canvas. *)
Definition fresh : Ctx :=
  mkCtx "#000000" "#000000" 1 "10px sans-serif" [].

Inductive exn : Type := TypeError.

Inductive outcome (A : Type) : Type :=
| Ok (a : A)
| Throw (e : exn).
Arguments Ok {A} a.
Arguments Throw {A} e.

(** A computation on a context: its outcome, the context it leaves, and the
    drawing calls it made, oldest first. *)
Definition M (A : Type) : Type := Ctx -> outcome A * Ctx * list prim.

Definition ret {A} (a : A) : M A := fun c => (Ok a, c, []).

Definition throw {A} (e : exn) : M A := fun c => (Throw e, c, []).

Definition bind {A B} (m : M A) (f : A -> M B) : M B :=
  fun c =>
    match m c with
    | (Ok a, c1, d1) => let '(r, c2, d2) := f a c1 in (r, c2, d1 ++ d2)%list
    | (Throw e, c1, d1) => (Throw e, c1, d1)
    end.

Definition modify (f : Ctx -> Ctx) : M unit := fun c => (Ok tt, f c, []).

Definition emit (p : Ctx -> prim) : M unit := fun c => (Ok tt, c, [p c]).

Definition set_fillStyle (s : string) : M unit :=
  modify (fun c => mkCtx s (strokeStyle c) (lineWidth c) (font c) (path c)).
Definition set_strokeStyle (s : string) : M unit :=
  modify (fun c => mkCtx (fillStyle c) s (lineWidth c) (font c) (path c)).
Definition set_lineWidth (w : number) : M unit :=
  modify (fun c => mkCtx (fillStyle c) (strokeStyle c) w (font c) (path c)).
Definition set_font (s : string) : M unit :=
  modify (fun c => mkCtx (fillStyle c) (strokeStyle c) (lineWidth c) s (path c)).

Definition clearRect (x y w h : number) : M unit :=
  emit (fun _ => ClearRect x y w h).
Definition fillText (t : string) (x y : number) : M unit :=
  emit (fun c => FillText t x y (fillStyle c) (font c)).
Definition fillRect (x y w h : number) : M unit :=
  emit (fun c => FillRect x y w h (fillStyle c)).
Definition strokeRect (x y w h : number) : M unit :=
  emit (fun c => StrokeRect x y w h (strokeStyle c) (lineWidth c)).

Definition set_path (p : list pathcmd) : M unit :=
  modify (fun c => mkCtx (fillStyle c) (strokeStyle c) (lineWidth c) (font c) p).
Definition beginPath : M unit := set_path [].
Definition moveTo (x y : number) : M unit :=
  modify (fun c => mkCtx (fillStyle c) (strokeStyle c) (lineWidth c) (font c)
                         (path c ++ [MoveTo x y])%list).
Definition lineTo (x y : number) : M unit :=
  modify (fun c => mkCtx (fillStyle c) (strokeStyle c) (lineWidth c) (font c)
                         (path c ++ [LineTo x y])%list).
Definition stroke : M unit :=
  emit (fun c => Stroke (path c) (strokeStyle c) (lineWidth c)).

(** [arr.forEach(f)] *)
Fixpoint forEach {A} (f : A -> M unit) (l : list A) : M unit :=
  match l with
  | [] => ret tt
  | a :: r => bind (f a) (fun _ => forEach f r)
  end.

(** [for (let i = 0; i <= n; i++) body(i)] *)
Definition for_le (n : nat) (body : Z -> M unit) : M unit :=
  forEach body (map Z.of_nat (seq 0 (S n))).

(** The calls made by a computation, and whether it returned. *)
Definition calls {A} (m : M A) (c : Ctx) : list prim := snd (m c).
Definition returned {A} (m : M A) (c : Ctx) : bool :=
  match fst (fst (m c)) with Ok _ => true | Throw _ => false end.

End Canvas.
Export Canvas.

Notation "x <- m ;; k" := (bind m (fun x => k))
  (at level 61, m at next level, right associativity).
Notation "m ;; k" := (bind m (fun _ => k))
  (at level 61, right associativity).

(** ** Data model: what the backend sends per trip day *)

Record Recap : Type := mkRecap {
  driving_hours : number;
  on_duty_hours : number;
  off_duty_hours : number;
  total_70hr_8day : number;
  available_tomorrow : number
}.

(** [start] and [end] are time-of-day strings; [None] is a field that is
    absent from the record ([undefined] or [null]). *)
Record Activity : Type := mkActivity {
  type : string;
  start : option string;
  end_ : option string
}.

(** [activities] may be absent as well. *)
Record DailyLog : Type := mkDailyLog {
  date : string;
  origin : string;
  destination : string;
  total_miles_driving : number;
  activities : option (list Activity);
  recap : Recap
}.

(** ** RouteMap.js: the geometry of the route map *)

(** [Math.min], [Math.max] and [>] on numbers. *)
Module JSMath.

(** [a <= b] on numbers that are not [NaN]. *)
Definition leb (a b : number) : bool :=
  match a, b with
  | NaN, _ | _, NaN => false
  | NInf, _ | _, PInf => true
  | Fin p, Fin q => Qle_bool p q
  | _, _ => false
  end.

(** [Math.min(a, b)]: [NaN] as soon as one argument is. *)
Definition min (a b : number) : number :=
  match a, b with
  | NaN, _ | _, NaN => NaN
  | _, _ => if leb a b then a else b
  end.

(** [Math.max(a, b)] *)
Definition max (a b : number) : number :=
  match a, b with
  | NaN, _ | _, NaN => NaN
  | _, _ => if leb a b then b else a
  end.

(** [a > b]: false as soon as one side is [NaN]. *)
Definition gtb (a b : number) : bool :=
  match a, b with
  | NaN, _ | _, NaN => false
  | _, _ => negb (leb a b)
  end.

End JSMath.

Module RouteMap.

(** A coordinate is an array of numbers, [[lat, lng]] when well formed.
    Reading past its end gives [undefined], which the arithmetic and
    [Math.min] and [Math.max] turn into [NaN]. *)
Definition Coord : Type := list number.

Definition at_ (c : Coord) (i : nat) : number := nth i c NaN.

Module KeyLocation.
(** [coordinates] is absent ([None]) or an array of numbers. *)
Record t : Type := mk { coordinates : option Coord }.
End KeyLocation.

Module KeyLocations.
Record t : Type := mk {
  current : option KeyLocation.t;
  pickup : option KeyLocation.t;
  dropoff : option KeyLocation.t
}.
End KeyLocations.

Module Segment.
(** [coordinates] is absent or an array of coordinates. *)
Record t : Type := mk {
  type : string;
  coordinates : option (list Coord)
}.
End Segment.

Record RouteData : Type := mkRouteData {
  segments : option (list Segment.t);
  key_locations : option KeyLocations.t
}.

(** The [locations] prop: the names typed in the form. *)
Record Locations : Type := mkLocations {
  loc_current : option string;
  loc_pickup : option string;
  loc_dropoff : option string
}.

(** [Array.isArray(coord) && coord.length >= 2] *)
Definition is_pair (c : Coord) : bool := (2 <=? List.length c)%nat.

(** [[coord[0], coord[1]]] *)
Definition pair_of (c : Coord) : Coord := [at_ c 0; at_ c 1].

(** [o?.coordinates], for a key location that may be absent. *)
Definition coordinates_of (o : option KeyLocation.t) : option Coord :=
  match o with
  | Some k => KeyLocation.coordinates k
  | None => None
  end.

(** [getMapCoordinates] (lines 94-123) *)
Definition getMapCoordinates (routeData : RouteData) : list Coord :=
  match segments routeData with
  | None => []
  | Some segs =>
      let coordinates :=
        flat_map (fun segment =>
                    match Segment.coordinates segment with
                    | Some ((_ :: _) as cs) =>
                        flat_map (fun coord =>
                                    if is_pair coord then [pair_of coord]
                                    else []) cs
                    | _ => []
                    end) segs in
      match coordinates, key_locations routeData with
      | [], Some kl =>
          (match coordinates_of (KeyLocations.current kl) with
           | Some c => [c] | None => [] end)
          ++ (match coordinates_of (KeyLocations.pickup kl) with
              | Some c => [c] | None => [] end)
          ++ (match coordinates_of (KeyLocations.dropoff kl) with
              | Some c => [c] | None => [] end)
      | _, _ => coordinates
      end
  end.

(** The three fields of the object [coords]. *)
Record LocationCoords : Type := mkLocationCoords {
  current : option Coord;
  pickup : option Coord;
  dropoff : option Coord
}.

(** A key location of the backend, when its coordinates are a pair. *)
Definition from_key_location (o : option KeyLocation.t) : option Coord :=
  match coordinates_of o with
  | Some c => if is_pair c then Some (pair_of c) else None
  | None => None
  end.

(** [segments.find(s => s.type === ty)] *)
Definition find_type (ty : string) (segs : list Segment.t) : option Segment.t :=
  find (fun s => String.eqb (Segment.type s) ty) segs.

(** The coordinates of a found segment when it has some: the test
    [seg && seg.coordinates && Array.isArray(...) && length > 0]. *)
Definition nonempty_coordinates (seg : option Segment.t) : option (list Coord) :=
  match seg with
  | Some s => match Segment.coordinates s with
              | Some ((_ :: _) as cs) => Some cs
              | _ => None
              end
  | None => None
  end.

Definition pair_if_valid (c : Coord) : option Coord :=
  if is_pair c then Some (pair_of c) else None.

Definition or_else (o : option Coord) (d : option Coord) : option Coord :=
  match o with Some _ => o | None => d end.

Definition default_current : Coord := [Fin (407128 # 10000); Fin (-740060 # 10000)].
Definition default_pickup : Coord := [Fin (407580 # 10000); Fin (-739855 # 10000)].
Definition default_dropoff : Coord := [Fin (418781 # 10000); Fin (-876298 # 10000)].

(** [getLocationCoordinates] (lines 126-214) *)
Definition getLocationCoordinates (routeData : RouteData) : LocationCoords :=
  let from_backend :=
    match key_locations routeData with
    | Some kl =>
        mkLocationCoords (from_key_location (KeyLocations.current kl))
                         (from_key_location (KeyLocations.pickup kl))
                         (from_key_location (KeyLocations.dropoff kl))
    | None => mkLocationCoords None None None
    end in
  match segments routeData with
  | Some ((_ :: _) as segs) =>
      let current1 :=
        or_else (current from_backend)
          match nonempty_coordinates (find_type "drive_to_pickup" segs) with
          | Some cs => pair_if_valid (nth 0 cs [])
          | None => None
          end in
      let current2 := or_else current1 (Some default_current) in
      let pickup1 :=
        or_else (pickup from_backend)
          match nonempty_coordinates (find_type "drive_to_dropoff" segs) with
          | Some cs => pair_if_valid (nth 0 cs [])
          | None => None
          end in
      let pickup2 := or_else pickup1 (Some default_pickup) in
      let dropoff1 :=
        or_else (dropoff from_backend)
          match nonempty_coordinates (find_type "dropoff" segs) with
          | Some cs => pair_if_valid (nth (List.length cs - 1) cs [])
          | None =>
              match nonempty_coordinates (find_type "drive_to_dropoff" segs) with
              | Some cs => pair_if_valid (nth (List.length cs - 1) cs [])
              | None => None
              end
          end in
      let dropoff2 := or_else dropoff1 (Some default_dropoff) in
      mkLocationCoords current2 pickup2 dropoff2
  | _ =>
      mkLocationCoords (or_else (current from_backend) (Some default_current))
                       (or_else (pickup from_backend) (Some default_pickup))
                       (or_else (dropoff from_backend) (Some default_dropoff))
  end.

(** [getSegmentCoordinates] (lines 217-228): [None] is [null]. *)
Definition getSegmentCoordinates (segment : Segment.t) : option Coord :=
  match Segment.coordinates segment with
  | Some ((_ :: _) as cs) =>
      if String.eqb (Segment.type segment) "drive_to_pickup"
         || String.eqb (Segment.type segment) "drive_to_dropoff"
      then
        let midIndex := (List.length cs / 2)%nat in
        Some (nth midIndex cs [])
      else Some (nth 0 cs [])
  | _ => None
  end.

(** The loop of lines 247-257, repeated at lines 270-280: the four bounds
    start at the first coordinate and are updated with every coordinate. *)
Definition boundingBox (mapCoordinates : list Coord)
  : number * number * number * number :=
  let first := nth 0 mapCoordinates [] in
  fold_left
    (fun '(minLat, maxLat, minLng, maxLng) coord =>
       (JSMath.min minLat (at_ coord 0), JSMath.max maxLat (at_ coord 0),
        JSMath.min minLng (at_ coord 1), JSMath.max maxLng (at_ coord 1)))
    mapCoordinates
    (at_ first 0, at_ first 0, at_ first 1, at_ first 1).

(** [calculateCenter] (lines 241-261) *)
Definition calculateCenter (mapCoordinates : list Coord) : Coord :=
  match mapCoordinates with
  | [] => default_current
  | _ =>
      let '(minLat, maxLat, minLng, maxLng) := boundingBox mapCoordinates in
      [((minLat + maxLat) / 2)%num; ((minLng + maxLng) / 2)%num]
  end.

(** [calculateZoom] (lines 266-293) *)
Definition calculateZoom (mapCoordinates : list Coord) : Z :=
  match mapCoordinates with
  | [] => 6
  | _ =>
      let '(minLat, maxLat, minLng, maxLng) := boundingBox mapCoordinates in
      let latSpan := (maxLat - minLat)%num in
      let lngSpan := (maxLng - minLng)%num in
      let maxSpan := JSMath.max latSpan lngSpan in
      if JSMath.gtb maxSpan 20 then 4
      else if JSMath.gtb maxSpan 10 then 5
      else if JSMath.gtb maxSpan 5 then 6
      else if JSMath.gtb maxSpan 2 then 7
      else if JSMath.gtb maxSpan 1 then 8
      else 9
  end.

(** A name of the form is shown when it is a non-empty string. *)
Definition truthy (s : option string) : bool :=
  match s with
  | Some EmptyString | None => false
  | Some _ => true
  end.

(** What the component hands to the map: its centre and zoom, the positions
    of the three location markers that are shown, the route line when there
    is one, and the position of the marker of each segment ([None] where the
    segment has no marker). *)
Record MapView : Type := mkMapView {
  center : Coord;
  zoom : Z;
  currentMarker : option Coord;
  pickupMarker : option Coord;
  dropoffMarker : option Coord;
  polyline : option (list Coord);
  segmentMarkers : list (option Coord)
}.

Definition shown (pos : option Coord) (cond : bool) : option Coord :=
  match pos with
  | Some c => if is_pair c && cond then Some c else None
  | None => None
  end.

(** [RouteMap] (lines 88-413): [None] is [null]. *)
Definition RouteMap (routeData : option RouteData) (locations : option Locations)
  : option MapView :=
  match routeData with
  | None => None
  | Some rd =>
      match segments rd with
      | None => None
      | Some segs =>
          let mapCoordinates := getMapCoordinates rd in
          let locationCoords := getLocationCoordinates rd in
          let name (f : Locations -> option string) :=
            match locations with Some l => truthy (f l) | None => false end in
          Some (mkMapView
                  (calculateCenter mapCoordinates)
                  (calculateZoom mapCoordinates)
                  (shown (current locationCoords) true)
                  (shown (pickup locationCoords) (name loc_pickup))
                  (shown (dropoff locationCoords) (name loc_dropoff))
                  (match mapCoordinates with
                   | [] => None
                   | _ => Some mapCoordinates
                   end)
                  (map getSegmentCoordinates segs))
      end
  end.

(** *** Vocabulary of the properties of the map *)

Definition lat (c : Coord) : number := at_ c 0.
Definition lng (c : Coord) : number := at_ c 1.

(** Both entries are finite numbers, as numbers read from JSON are. *)
Definition finite_coord (c : Coord) : Prop :=
  exists p q : Q, lat c = Fin p /\ lng c = Fin q.

(** [[lo, hi] x [lo', hi']] is the smallest box that contains the
    coordinates of [l]: every coordinate is inside, and each side passes
    through one of them. *)
Definition box (l : list Coord) (lo hi lo' hi' : Q) : Prop :=
  (forall c, In c l ->
     JSMath.leb (Fin lo) (lat c) = true /\ JSMath.leb (lat c) (Fin hi) = true
     /\ JSMath.leb (Fin lo') (lng c) = true
     /\ JSMath.leb (lng c) (Fin hi') = true)
  /\ (exists c, In c l /\ lat c = Fin lo)
  /\ (exists c, In c l /\ lat c = Fin hi)
  /\ (exists c, In c l /\ lng c = Fin lo')
  /\ (exists c, In c l /\ lng c = Fin hi').

(** The zoom level chosen for a span: the chain of tests of lines
    287-292. *)
Definition zoom_for (maxSpan : number) : Z :=
  if JSMath.gtb maxSpan 20 then 4
  else if JSMath.gtb maxSpan 10 then 5
  else if JSMath.gtb maxSpan 5 then 6
  else if JSMath.gtb maxSpan 2 then 7
  else if JSMath.gtb maxSpan 1 then 8
  else 9.

Definition without_key_locations (routeData : RouteData) : RouteData :=
  mkRouteData (segments routeData) None.

(** *** A sample route *)

Definition point (la lo : Z) : Coord := [of_Z la; of_Z lo].

Definition sampleSegments : list Segment.t :=
  [ Segment.mk "drive_to_pickup" (Some [point 40 (-74); point 41 (-75); point 42 (-76)]);
    Segment.mk "pickup" (Some [point 42 (-76)]);
    Segment.mk "drive_to_dropoff" (Some [point 42 (-76); [of_Z 1]; point 41 (-87)]);
    Segment.mk "dropoff" None ].

Definition sampleRoute : RouteData := mkRouteData (Some sampleSegments) None.

(** Key locations of which the first has a coordinate with one entry. *)
Definition sampleKeyLocations : KeyLocations.t :=
  KeyLocations.mk (Some (KeyLocation.mk (Some [of_Z 1])))
                  None
                  (Some (KeyLocation.mk (Some (point 3 4)))).

Definition sampleNames : Locations :=
  mkLocations (Some "New York, NY") (Some "") (Some "Chicago, IL").

End RouteMap.

(** ** LogSheets.js *)

Section LogSheets.

(** [new Date(d).toLocaleDateString()]: depends on the host's locale. *)
Variable toLocaleDateString : string -> string.
Variable bigToString : Q -> string.

(** [x.toFixed(2)] *)
Definition toFixed (x : number) : string := toFixed2 bigToString x.

(** [parseTime]: [timeStr.split(':').map(Number)], destructured as
    [[hours, minutes]]; a missing element is [undefined], which arithmetic
    turns into [NaN].  On a value without [split] the call throws. *)
Definition parseTime (timeStr : option string) : M number :=
  match timeStr with
  | None => throw TypeError
  | Some s =>
      let nums := map Number (split ":" s) in
      let hours := nth 0 nums NaN in
      let minutes := nth 1 nums NaN in
      ret (hours + minutes / 60)%num
  end.

(** The expression [x + (t / 24) * width] that places a time on the
    timeline: lines 129, 164 and 165. *)
Definition timeAxisMapper (x0 h w : number) : number :=
  (x0 + (h / 24) * w)%num.

(** The row a bar is drawn in (lines 167-172). *)
Definition rowIndex (ty : string) : Z :=
  if String.eqb ty "driving" then 2
  else if String.eqb ty "on_duty" then 3
  else 0.

(** The fill colour of a bar (lines 178-179). *)
Definition barColor (ty : string) : string :=
  if String.eqb ty "driving" then "#e74c3c"
  else if String.eqb ty "on_duty" then "#f39c12"
  else "#3498db".

(** The body of the [forEach] of [drawDutyStatusTimeline]. *)
Definition drawActivity (x yStart width rowHeight : number)
    (activity : Activity) : M unit :=
  startTime <- parseTime (start activity) ;;
  endTime <- parseTime (end_ activity) ;;
  let startX := timeAxisMapper x startTime width in
  let endX := timeAxisMapper x endTime width in
  let y := (yStart + rowIndex (type activity) * rowHeight - 10)%num in
  let barHeight := (rowHeight - 2)%num in
  set_fillStyle (barColor (type activity)) ;;
  fillRect startX y (endX - startX)%num barHeight ;;
  set_strokeStyle "#000" ;;
  set_lineWidth 1 ;;
  strokeRect startX y (endX - startX)%num barHeight.

Definition drawDutyStatusTimeline (log : DailyLog)
    (x yStart width rowHeight : number) : M unit :=
  let activities := match activities log with Some l => l | None => [] end in
  forEach (drawActivity x yStart width rowHeight) activities.

Definition statusLabels : list string :=
  [ "1. Off Duty"; "2. Sleeper Berth"; "3. Driving";
    "4. On Duty (not driving)" ].

Definition margin : number := 40.
Definition timelineHeight : number := 300.
Definition timelineY : number := 250.
Definition statusYStart : number := (timelineY + 20)%num.
Definition statusRowHeight : number := 50.
Definition timelineWidth (width : number) : number :=
  (width - 2 * margin - 200)%num.
Definition timelineX : number := (margin + 200)%num.

(** Lines 82-94: title, date, origin, destination and miles. *)
Definition drawHeader (width : number) (log : DailyLog) : M unit :=
  set_fillStyle "#000" ;;
  set_font "bold 16px Arial" ;;
  fillText "Drivers Daily Log (24 hours)" margin 30 ;;
  set_font "12px Arial" ;;
  fillText ("Date: " ++ toLocaleDateString (date log)) (width - 200)%num 30 ;;
  fillText ("From: " ++ origin log) margin 60 ;;
  fillText ("To: " ++ destination log) margin 80 ;;
  fillText ("Total Miles: " ++ toFixed (total_miles_driving log)) margin 100.

(** Lines 96-110: the four row labels. *)
Definition drawStatusLabels : M unit :=
  forEach (fun '(index, label) =>
             let y := (statusYStart + of_Z index * statusRowHeight)%num in
             fillText label (margin + 20)%num (y + 15)%num)
          (combine (map Z.of_nat (seq 0 (List.length statusLabels)))
                   statusLabels).

(** Line 136. *)
Definition hourLabel (hour : Z) : string :=
  if (hour =? 0)%Z then "Mid"
  else if (hour =? 12)%Z then "Noon"
  else if (hour >? 12)%Z then dec (hour - 12)
  else dec hour.

(** Lines 112-139: row separators, hour ticks and hour labels. *)
Definition drawGrid (width : number) : M unit :=
  set_strokeStyle "#333" ;;
  set_lineWidth 1 ;;
  for_le 4 (fun i =>
    let y := (statusYStart + of_Z i * statusRowHeight - 10)%num in
    beginPath ;;
    moveTo timelineX y ;;
    lineTo (timelineX + timelineWidth width)%num y ;;
    stroke) ;;
  set_font "10px Arial" ;;
  set_fillStyle "#333" ;;
  for_le 24 (fun hour =>
    let x := timeAxisMapper timelineX (of_Z hour) (timelineWidth width) in
    beginPath ;;
    moveTo x (statusYStart - 10)%num ;;
    lineTo x (statusYStart + 4 * statusRowHeight - 10)%num ;;
    stroke ;;
    if (hour mod 2 =? 0)%Z
    then fillText (hourLabel hour) (x - 10)%num (statusYStart - 15)%num
    else ret tt).

(** Lines 144-154. *)
Definition drawRecap (log : DailyLog) : M unit :=
  let recapY := (timelineY + timelineHeight + 50)%num in
  set_font "bold 14px Arial" ;;
  fillText "Recap: Complete at end of day" margin recapY ;;
  set_font "12px Arial" ;;
  fillText ("On duty hours today: " ++ toFixed (on_duty_hours (recap log)))
           margin (recapY + 30)%num ;;
  fillText ("Driving hours: " ++ toFixed (driving_hours (recap log)))
           margin (recapY + 50)%num ;;
  fillText ("Off duty hours: " ++ toFixed (off_duty_hours (recap log)))
           margin (recapY + 70)%num ;;
  fillText ("Total 70hr/8day: " ++ toFixed (total_70hr_8day (recap log)))
           margin (recapY + 90)%num ;;
  fillText ("Available tomorrow: "
              ++ toFixed (available_tomorrow (recap log)) ++ " hrs")
           margin (recapY + 110)%num.

(** [drawLogSheet(ctx, width, height, log)], in the order of the source. *)
Definition drawLogSheet (width height : number) (log : DailyLog) : M unit :=
  drawHeader width log ;;
  drawStatusLabels ;;
  drawGrid width ;;
  drawDutyStatusTimeline log timelineX statusYStart (timelineWidth width)
                         statusRowHeight ;;
  drawRecap log.

(** The canvas element of a sheet: [width={1000} height={1400}]. *)
Definition canvasWidth : number := 1000.
Definition canvasHeight : number := 1400.

(** The effect of [LogSheet] (lines 24-43), on the context of its canvas. *)
Definition LogSheet_effect (log : DailyLog) : M unit :=
  let width := canvasWidth in
  let height := canvasHeight in
  clearRect 0 0 width height ;;
  set_fillStyle "#000" ;;
  set_strokeStyle "#000" ;;
  set_lineWidth 1 ;;
  set_font "12px Arial" ;;
  drawLogSheet width height log.

(** What [LogSheet] returns (lines 45-71): the heading and the summary. *)
Record SheetView : Type := mkSheetView {
  heading : string;
  summary : list (string * string)
}.

Definition LogSheet_view (log : DailyLog) (dayNumber : Z) : SheetView :=
  mkSheetView
    ("Day " ++ dec dayNumber ++ " - " ++ toLocaleDateString (date log))
    [ ("Driving Hours:", toFixed (driving_hours (recap log)) ++ " hrs");
      ("On Duty Hours:", toFixed (on_duty_hours (recap log)) ++ " hrs");
      ("Off Duty Hours:", toFixed (off_duty_hours (recap log)) ++ " hrs");
      ("Total Miles:", toFixed (total_miles_driving log) ++ " miles") ].

(** A [<LogSheet key log dayNumber />] element. *)
Record LogSheetElement : Type := mkElement {
  key : Z;
  log : DailyLog;
  dayNumber : Z
}.

(** [logs.map((log, index) => ...)] *)
Fixpoint mapi_from {A B} (index : Z) (f : A -> Z -> B) (l : list A) : list B :=
  match l with
  | [] => []
  | a :: r => f a index :: mapi_from (index + 1) f r
  end.

(** [LogSheets] (lines 4-19): [None] is [null], otherwise the children of
    the grid. *)
Definition LogSheets (logs : option (list DailyLog))
  : option (list LogSheetElement) :=
  match logs with
  | None | Some [] => None
  | Some l =>
      Some (mapi_from 0 (fun log index => mkElement index log (index + 1)) l)
  end.

(** ** Vocabulary of the properties *)

(** The outcome of a computation and the context it leaves. *)
Definition outcome_of {A} (m : M A) (c : Ctx) : outcome A := fst (fst (m c)).
Definition ctx_after {A} (m : M A) (c : Ctx) : Ctx := snd (fst (m c)).


(** *** The calls of each part of a sheet *)

Definition headerCalls (width : number) (log : DailyLog) : list prim :=
  [ FillText "Drivers Daily Log (24 hours)" margin 30 "#000" "bold 16px Arial";
    FillText ("Date: " ++ toLocaleDateString (date log)) (width - 200)%num 30
             "#000" "12px Arial";
    FillText ("From: " ++ origin log) margin 60 "#000" "12px Arial";
    FillText ("To: " ++ destination log) margin 80 "#000" "12px Arial";
    FillText ("Total Miles: " ++ toFixed (total_miles_driving log)) margin 100
             "#000" "12px Arial" ].

Definition labelCalls (fill fnt : string) : list prim :=
  [ FillText "1. Off Duty" 60 285 fill fnt;
    FillText "2. Sleeper Berth" 60 335 fill fnt;
    FillText "3. Driving" 60 385 fill fnt;
    FillText "4. On Duty (not driving)" 60 435 fill fnt ].

(** Separator [i], from the left to the right end of the timeline. *)
Definition separator (width : number) (i : Z) : prim :=
  let y := (statusYStart + of_Z i * statusRowHeight - 10)%num in
  Stroke [MoveTo timelineX y; LineTo (timelineX + timelineWidth width)%num y]
         "#333" 1.

(** The tick of an hour, over the four rows, and its label when it has
    one. *)
Definition hourTick (width : number) (hour : Z) : prim :=
  let x := timeAxisMapper timelineX (of_Z hour) (timelineWidth width) in
  Stroke [MoveTo x (statusYStart - 10)%num;
          LineTo x (statusYStart + 4 * statusRowHeight - 10)%num] "#333" 1.

Definition hourText (width : number) (hour : Z) : prim :=
  let x := timeAxisMapper timelineX (of_Z hour) (timelineWidth width) in
  FillText (hourLabel hour) (x - 10)%num (statusYStart - 15)%num
           "#333" "10px Arial".

Definition hourCalls (width : number) (hour : Z) : list prim :=
  if Z.even hour then [hourTick width hour; hourText width hour]
  else [hourTick width hour].

Definition hours0to24 : list Z := map Z.of_nat (seq 0 25).

Definition gridCalls (width : number) : list prim :=
  (map (separator width) [0; 1; 2; 3; 4] ++ flat_map (hourCalls width) hours0to24)%list.

Definition recapCalls (fill : string) (log : DailyLog) : list prim :=
  [ FillText "Recap: Complete at end of day" 40 600 fill "bold 14px Arial";
    FillText ("On duty hours today: " ++ toFixed (on_duty_hours (recap log)))
             40 630 fill "12px Arial";
    FillText ("Driving hours: " ++ toFixed (driving_hours (recap log)))
             40 650 fill "12px Arial";
    FillText ("Off duty hours: " ++ toFixed (off_duty_hours (recap log)))
             40 670 fill "12px Arial";
    FillText ("Total 70hr/8day: " ++ toFixed (total_70hr_8day (recap log)))
             40 690 fill "12px Arial";
    FillText ("Available tomorrow: "
                ++ toFixed (available_tomorrow (recap log)) ++ " hrs")
             40 710 fill "12px Arial" ].

(** The context with its style properties replaced. *)
Definition with_fill (s : string) (c : Ctx) : Ctx :=
  mkCtx s (strokeStyle c) (lineWidth c) (font c) (path c).
Definition with_font (s : string) (c : Ctx) : Ctx :=
  mkCtx (fillStyle c) (strokeStyle c) (lineWidth c) s (path c).

Definition lastTick (width : number) : list pathcmd :=
  match hourTick width 24 with
  | Stroke p _ _ => p
  | _ => []
  end.

(** *** Activity bars *)

(** The fractional hour [parseTime] computes from a string. *)
Definition timeOf (s : string) : number :=
  let nums := map Number (split ":" s) in
  (nth 0 nums NaN + nth 1 nums NaN / 60)%num.

(** The two calls that draw the bar of an interval [[st, en]] of type [ty]. *)
Definition barCalls (x yStart width rowHeight : number) (ty : string)
    (st en : number) : list prim :=
  let startX := timeAxisMapper x st width in
  let endX := timeAxisMapper x en width in
  let y := (yStart + rowIndex ty * rowHeight - 10)%num in
  [ FillRect startX y (endX - startX)%num (rowHeight - 2)%num (barColor ty);
    StrokeRect startX y (endX - startX)%num (rowHeight - 2)%num "#000" 1 ].

(** The context after a bar is drawn. *)
Definition barCtx (ty : string) (c : Ctx) : Ctx :=
  mkCtx (barColor ty) "#000" 1 (font c) (path c).

Definition has_times (a : Activity) : bool :=
  match start a, end_ a with
  | Some _, Some _ => true
  | _, _ => false
  end.

(** The calls for an activity: none when a time is missing. *)
Definition activityCalls (x yStart width rowHeight : number) (a : Activity)
  : list prim :=
  match start a, end_ a with
  | Some s, Some e =>
      barCalls x yStart width rowHeight (type a) (timeOf s) (timeOf e)
  | _, _ => []
  end.

Definition is_bar_call (p : prim) : bool :=
  match p with
  | FillRect _ _ _ _ _ | StrokeRect _ _ _ _ _ _ => true
  | _ => false
  end.

(** The activities whose bars are drawn: those before the first one with a
    missing time. *)
Fixpoint drawn_prefix (l : list Activity) : list Activity :=
  match l with
  | a :: r => if has_times a then a :: drawn_prefix r else []
  | [] => []
  end.

(** The fill style left by the bars: that of the last bar drawn. *)
Definition fill_after (l : list Activity) (fill : string) : string :=
  fold_left (fun _ a => barColor (type a)) l fill.

(** [log.activities || []] *)
Definition activities_or_empty (log : DailyLog) : list Activity :=
  match activities log with Some l => l | None => [] end.

Definition timeline (log : DailyLog) : M unit :=
  drawDutyStatusTimeline log timelineX statusYStart (timelineWidth canvasWidth)
                         statusRowHeight.

(** The bar calls of a sheet on the 1000-unit canvas. *)
Definition sheetBars (l : list Activity) : list prim :=
  flat_map (activityCalls timelineX statusYStart (timelineWidth canvasWidth)
                          statusRowHeight) l.

Definition all_times (log : DailyLog) : bool :=
  forallb has_times (activities_or_empty log).

(** The context in which the bars are drawn. *)
Definition gridCtx : Ctx :=
  mkCtx "#333" "#333" 1 "10px Arial" (lastTick canvasWidth).

Definition sheetHead (log : DailyLog) : list prim :=
  (ClearRect 0 0 canvasWidth canvasHeight
   :: headerCalls canvasWidth log ++ labelCalls "#000" "12px Arial")%list.

(** *** Classifying the calls of a sheet *)

(** A stroked segment that is horizontal and not reduced to a point. *)
Definition is_separator (p : prim) : bool :=
  match p with
  | Stroke [MoveTo x1 y1; LineTo x2 y2] _ _ =>
      num_eqb y1 y2 && negb (num_eqb x1 x2)
  | _ => false
  end.

(** A stroked segment that is vertical and not reduced to a point. *)
Definition is_tick (p : prim) : bool :=
  match p with
  | Stroke [MoveTo x1 y1; LineTo x2 y2] _ _ =>
      num_eqb x1 x2 && negb (num_eqb y1 y2)
  | _ => false
  end.

(** A text on the line just above the grid. *)
Definition is_hour_label (p : prim) : bool :=
  match p with
  | FillText _ _ y _ _ => num_eqb y (statusYStart - 15)%num
  | _ => false
  end.

Definition is_grid_call (p : prim) : bool :=
  match p with
  | Stroke _ _ _ => true
  | _ => is_hour_label p
  end.

(** Any other text: header, row labels, recap. *)
Definition is_text_call (p : prim) : bool :=
  match p with
  | FillText _ _ _ _ _ => negb (is_hour_label p)
  | _ => false
  end.

Definition tick_x (p : prim) : number :=
  match p with
  | Stroke (MoveTo x _ :: _) _ _ => x
  | _ => NaN
  end.

Definition separator_y (p : prim) : number :=
  match p with
  | Stroke (MoveTo _ y :: _) _ _ => y
  | _ => NaN
  end.

Definition text_at (p : prim) : string * number :=
  match p with
  | FillText t x _ _ _ => (t, x)
  | _ => ("", NaN)
  end.

Definition evenHours : list Z := [0; 2; 4; 6; 8; 10; 12; 14; 16; 18; 20; 22; 24].

Definition with_activities (l : option (list Activity)) (log : DailyLog)
  : DailyLog :=
  mkDailyLog (date log) (origin log) (destination log)
             (total_miles_driving log) l (recap log).

(** *** The order of the calls *)

(** [l], read through successive phases: the calls of each phase satisfy its
    test, and nothing is left after the last phase. *)
Fixpoint dropWhile {A} (f : A -> bool) (l : list A) : list A :=
  match l with
  | a :: r => if f a then dropWhile f r else l
  | [] => []
  end.

Fixpoint in_phases (phases : list (prim -> bool)) (l : list prim) : bool :=
  match phases with
  | [] => match l with [] => true | _ => false end
  | f :: ps => in_phases ps (dropWhile f l)
  end.

(** Clear, then the grid, then the bars, then the header and recap texts. *)
Definition grid_bars_text_order (out : list prim) : bool :=
  match out with
  | ClearRect _ _ _ _ :: r => in_phases [is_grid_call; is_bar_call; is_text_call] r
  | _ => false
  end.

(** *** Sample records *)

(** A locale that prints the date string as it is, and the exponent form of
    10^21. *)
Definition sampleLocale (d : string) : string := d.
Definition sampleBig (q : Q) : string := "1e+21".

Definition sampleRecap : Recap :=
  mkRecap (of_Z 13) (of_Z 1) (of_Z 10) (of_Z 35) (of_Z 11).

Definition interval (ty s e : string) : Activity :=
  mkActivity ty (Some s) (Some e).

Definition sampleLog : DailyLog :=
  mkDailyLog "2024-03-01" "New York, NY" "Chicago, IL" (of_Z 1350)
    (Some [ interval "off_duty" "00:00" "06:00";
            interval "driving" "06:00" "12:00";
            interval "on_duty" "12:00" "13:00";
            interval "driving" "13:00" "20:00";
            interval "off_duty" "20:00" "24:00" ])
    sampleRecap.

(** The same day with a time that is not in the [HH:MM] format. *)
Definition malformedLog : DailyLog :=
  with_activities
    (Some [ interval "off_duty" "00:00" "06:00";
            interval "driving" "abc" "12:00" ])
    sampleLog.

(** The same day with an activity that has no [start]. *)
Definition brokenLog : DailyLog :=
  with_activities
    (Some [ interval "off_duty" "00:00" "06:00";
            mkActivity "driving" None (Some "12:00");
            interval "off_duty" "12:00" "24:00" ])
    sampleLog.



(** *** Failing before drawing *)

Definition is_clear (p : prim) : bool :=
  match p with ClearRect _ _ _ _ => true | _ => false end.

(** The rendering stops with an error before anything is drawn on the
    cleared surface. *)
Definition fails_before_drawing (m : M unit) (c : Ctx) : bool :=
  negb (returned m c) && forallb is_clear (calls m c).

(** *** Time strings *)




Fixpoint no_colon (s : string) : bool :=
  match s with
  | EmptyString => true
  | String c r => negb (Ascii.eqb c ":") && no_colon r
  end.

(** *** Rectangles *)

Definition rect_x (p : prim) : number :=
  match p with
  | FillRect x _ _ _ _ | StrokeRect x _ _ _ _ _ => x
  | _ => NaN
  end.

Definition rect_y (p : prim) : number :=
  match p with
  | FillRect _ y _ _ _ | StrokeRect _ y _ _ _ _ => y
  | _ => NaN
  end.

Definition rect_w (p : prim) : number :=
  match p with
  | FillRect _ _ w _ _ | StrokeRect _ _ w _ _ _ => w
  | _ => NaN
  end.

Definition rect_h (p : prim) : number :=
  match p with
  | FillRect _ _ _ h _ | StrokeRect _ _ _ h _ _ => h
  | _ => NaN
  end.

Definition text_fill (p : prim) : string :=
  match p with
  | FillText _ _ _ fill _ => fill
  | _ => ""
  end.

(** The geometry and the colour of the bar of an activity that has its
    times. *)
Definition bar_geometry (a : Activity) : list (number * number * number * string) :=
  match start a, end_ a with
  | Some s, Some e =>
      let W := timelineWidth canvasWidth in
      [ (timeAxisMapper timelineX (timeOf s) W,
         (statusYStart + rowIndex (type a) * statusRowHeight - 10)%num,
         (timeAxisMapper timelineX (timeOf e) W
          - timeAxisMapper timelineX (timeOf s) W)%num,
         barColor (type a)) ]
  | _, _ => []
  end.

(** A day whose second activity is a rest in the sleeper berth. *)
Definition sleeperLog : DailyLog :=
  with_activities
    (Some [ interval "driving" "00:00" "04:00";
            interval "sleeper_berth" "04:00" "12:00" ])
    sampleLog.

(** * Properties *)

(** ** Reasoning about computations on a context *)

Section Runs.

Context {A B : Type}.

Lemma run_eta (m : M A) (c : Ctx) :
  m c = (outcome_of m c, ctx_after m c, calls m c).
Proof.
  unfold outcome_of, ctx_after, calls.
  destruct (m c) as [[r c1] d]; reflexivity.
Qed.

Lemma bind_ok (m : M A) (f : A -> M B) (c c1 : Ctx) (a : A) (d1 : list prim) :
  m c = (Ok a, c1, d1) ->
  bind m f c = (fst (fst (f a c1)), snd (fst (f a c1)), d1 ++ snd (f a c1))%list.
Proof.
  intros E. unfold bind. rewrite E.
  destruct (f a c1) as [[r c2] d2]; reflexivity.
Qed.

Lemma bind_throw (m : M A) (f : A -> M B) (c c1 : Ctx) (e : exn)
    (d1 : list prim) :
  m c = (Throw e, c1, d1) -> bind m f c = (Throw e, c1, d1).
Proof. intros E. unfold bind. rewrite E. reflexivity. Qed.

End Runs.

Lemma returned_outcome {A} (m : M A) (c : Ctx) :
  returned m c = true -> exists a, outcome_of m c = Ok a.
Proof.
  unfold returned, outcome_of. destruct (fst (fst (m c))); [eauto | discriminate].
Qed.

Lemma not_returned_outcome {A} (m : M A) (c : Ctx) :
  returned m c = false -> exists e, outcome_of m c = Throw e.
Proof.
  unfold returned, outcome_of. destruct (fst (fst (m c))); [discriminate | eauto].
Qed.

Ltac run_cases m c k :=
  unfold calls, returned, ctx_after, outcome_of, bind;
  destruct (m c) as [[[[]|?e] ?c1] ?d1]; simpl;
  [ destruct (k _) as [[?r ?c2] ?d2]; simpl | ].

(** Sequencing: the calls of [m ;; k] are those of [m], followed by those of
    [k] when [m] returns. *)
Lemma seq_calls {B} (m : M unit) (k : M B) (c : Ctx) :
  calls (m ;; k) c =
  (calls m c ++ if returned m c then calls k (ctx_after m c) else [])%list.
Proof. run_cases m c k; [reflexivity | now rewrite List.app_nil_r]. Qed.

Lemma seq_returned {B} (m : M unit) (k : M B) (c : Ctx) :
  returned (m ;; k) c = returned m c && returned k (ctx_after m c).
Proof. run_cases m c k; reflexivity. Qed.

Lemma seq_ctx_after {B} (m : M unit) (k : M B) (c : Ctx) :
  returned m c = true ->
  ctx_after (m ;; k) c = ctx_after k (ctx_after m c).
Proof. run_cases m c k; [reflexivity | discriminate]. Qed.

Lemma fin_eq (q : Q) : num_eq (fin q) (Fin q).
Proof. apply Qred_correct. Qed.


(** ** The time axis and the rows *)



(** C1.  A bar of type [sleeper_berth] is drawn in row 0, the row labelled
    "1. Off Duty", although the sheet labels row 1 "2. Sleeper Berth": on the
    sheet it lies between y = 260 and y = 308, above the separator at 310
    under which row 1 begins.  The other three types are drawn in the rows
    the labels give them. *)
Theorem rowIndex_sleeper_berth :
  rowIndex "sleeper_berth" = 0
  /\ nth 0 statusLabels "" = "1. Off Duty"
  /\ nth 1 statusLabels "" = "2. Sleeper Berth"
  /\ calls (drawActivity timelineX statusYStart (timelineWidth canvasWidth)
                         statusRowHeight
                         (interval "sleeper_berth" "00:00" "06:00")) fresh
     = [ FillRect 240 260 180 48 "#3498db";
         StrokeRect 240 260 180 48 "#000" 1 ]
  /\ separator_y (separator canvasWidth 1) = of_Z 310
  /\ rowIndex "off_duty" = 0 /\ rowIndex "driving" = 2 /\ rowIndex "on_duty" = 3.
Proof. repeat apply conj; vm_compute; reflexivity. Qed.

Lemma drawHeader_run (width : number) (log : DailyLog) (c : Ctx) :
  drawHeader width log c
  = (Ok tt, with_font "12px Arial" (with_fill "#000" c), headerCalls width log).
Proof. reflexivity. Qed.

Lemma drawStatusLabels_run (c : Ctx) :
  drawStatusLabels c = (Ok tt, c, labelCalls (fillStyle c) (font c)).
Proof. reflexivity. Qed.

Lemma drawGrid_run (width : number) (c : Ctx) :
  drawGrid width c
  = (Ok tt, mkCtx "#333" "#333" 1 "10px Arial" (lastTick width),
     gridCalls width).
Proof. reflexivity. Qed.

Lemma drawRecap_run (log : DailyLog) (c : Ctx) :
  drawRecap log c
  = (Ok tt, with_font "12px Arial" c, recapCalls (fillStyle c) log).
Proof. reflexivity. Qed.

Lemma parseTime_string (s : string) (c : Ctx) :
  parseTime (Some s) c = (Ok (timeOf s), c, []).
Proof. reflexivity. Qed.

Section Bars.

Variables x yStart width rowHeight : number.

Let draw := drawActivity x yStart width rowHeight.

Lemma drawActivity_run (a : Activity) (c : Ctx) :
  draw a c
  = if has_times a
    then (Ok tt, barCtx (type a) c, activityCalls x yStart width rowHeight a)
    else (Throw TypeError, c, []).
Proof. destruct a as [ty [s|] [e|]]; reflexivity. Qed.

Lemma drawActivity_returned (a : Activity) (c : Ctx) :
  returned (draw a) c = has_times a.
Proof.
  unfold returned. rewrite drawActivity_run. now destruct (has_times a).
Qed.

Lemma drawActivity_calls (a : Activity) (c : Ctx) :
  calls (draw a) c = activityCalls x yStart width rowHeight a.
Proof.
  unfold calls. rewrite drawActivity_run.
  destruct a as [ty [s|] [e|]]; reflexivity.
Qed.

Lemma drawActivity_ctx (a : Activity) (c : Ctx) :
  has_times a = true -> ctx_after (draw a) c = barCtx (type a) c.
Proof. intros H. unfold ctx_after. now rewrite drawActivity_run, H. Qed.

Lemma activityCalls_bars (a : Activity) :
  forallb is_bar_call (activityCalls x yStart width rowHeight a) = true.
Proof. destruct a as [ty [s|] [e|]]; reflexivity. Qed.

Lemma forEach_calls (l : list Activity) (c : Ctx) :
  calls (forEach draw l) c
  = flat_map (activityCalls x yStart width rowHeight) (drawn_prefix l).
Proof.
  revert c. induction l as [|a r IH]; intros c; [reflexivity|].
  cbn [forEach]. rewrite seq_calls, drawActivity_returned, drawActivity_calls.
  cbn [drawn_prefix]. destruct (has_times a) eqn:H.
  - cbn [flat_map]. now rewrite IH.
  - destruct a as [ty [s|] [e|]]; try discriminate; reflexivity.
Qed.

Lemma forEach_returned (l : list Activity) (c : Ctx) :
  returned (forEach draw l) c = forallb has_times l.
Proof.
  revert c. induction l as [|a r IH]; intros c; [reflexivity|].
  cbn [forEach forallb]. now rewrite seq_returned, drawActivity_returned, IH.
Qed.

Lemma drawn_prefix_all (l : list Activity) :
  forallb has_times l = true -> drawn_prefix l = l.
Proof.
  induction l as [|a r IH]; [reflexivity|].
  cbn. destruct (has_times a); [|discriminate].
  intros H. now rewrite IH.
Qed.

Lemma forEach_fill (l : list Activity) (c : Ctx) :
  forallb has_times l = true ->
  fillStyle (ctx_after (forEach draw l) c) = fill_after l (fillStyle c).
Proof.
  revert c. induction l as [|a r IH]; intros c; [reflexivity|].
  cbn [forallb]. intros [Ha Hr]%andb_prop.
  cbn [forEach]. rewrite seq_ctx_after by now rewrite drawActivity_returned.
  rewrite IH by exact Hr. now rewrite drawActivity_ctx.
Qed.

End Bars.

Lemma timeline_calls (log : DailyLog) (c : Ctx) :
  calls (timeline log) c = sheetBars (drawn_prefix (activities_or_empty log)).
Proof. apply forEach_calls. Qed.

Lemma timeline_returned (log : DailyLog) (c : Ctx) :
  returned (timeline log) c = all_times log.
Proof. apply forEach_returned. Qed.

(** The calls of a whole sheet, in order. *)
Lemma LogSheet_effect_calls (log : DailyLog) (c : Ctx) :
  calls (LogSheet_effect log) c
  = (sheetHead log ++ gridCalls canvasWidth
     ++ sheetBars (drawn_prefix (activities_or_empty log))
     ++ if all_times log
        then recapCalls (fill_after (activities_or_empty log) "#333") log
        else [])%list.
Proof.
  rewrite <- (timeline_calls log gridCtx), <- (timeline_returned log gridCtx).
  transitivity
    (sheetHead log ++ gridCalls canvasWidth
     ++ calls (timeline log) gridCtx
     ++ if returned (timeline log) gridCtx
        then recapCalls (fillStyle (ctx_after (timeline log) gridCtx)) log
        else [])%list.
  - unfold LogSheet_effect, drawLogSheet.
    rewrite !seq_calls. reflexivity.
  - destruct (returned (timeline log) gridCtx) eqn:R; [|reflexivity].
    rewrite timeline_returned in R.
    unfold timeline, drawDutyStatusTimeline.
    fold (activities_or_empty log).
    rewrite forEach_fill by exact R. reflexivity.
Qed.

Lemma LogSheet_effect_returned (log : DailyLog) (c : Ctx) :
  returned (LogSheet_effect log) c = all_times log.
Proof.
  rewrite <- (timeline_returned log gridCtx).
  unfold LogSheet_effect, drawLogSheet.
  rewrite !seq_returned. cbn. now rewrite andb_true_r.
Qed.

(** ** Activity bars: extent, height, colour and border *)





Lemma forallb_forall_false {A} (f : A -> bool) (l : list A) :
  forallb f l = false -> exists a, In a l /\ f a = false.
Proof.
  induction l as [|a r IH]; [discriminate|].
  cbn. destruct (f a) eqn:Fa.
  - intros H. destruct (IH H) as (b & Hb & Fb). exists b. auto.
  - intros _. exists a. auto.
Qed.

Lemma filter_none {A} (f g : A -> bool) (l : list A) :
  (forall a, g a = true -> f a = false) ->
  forallb g l = true -> filter f l = [].
Proof.
  intros H. induction l as [|a r IH]; [reflexivity|].
  cbn. intros [Ha Hr]%andb_prop. now rewrite (H a Ha), IH.
Qed.

Lemma sheetBars_bars (l : list Activity) :
  forallb is_bar_call (sheetBars l) = true.
Proof.
  induction l as [|a r IH]; [reflexivity|].
  unfold sheetBars. cbn [flat_map]. rewrite forallb_app.
  now rewrite activityCalls_bars.
Qed.

Lemma bars_no_grid (f : prim -> bool) (l : list Activity) :
  (forall p, is_bar_call p = true -> f p = false) ->
  filter f (sheetBars l) = [].
Proof. intros H. apply (filter_none f is_bar_call); [exact H | apply sheetBars_bars]. Qed.

Ltac bar_not :=
  let p := fresh "p" in intros p; destruct p; try discriminate; reflexivity.

(** What a classifier keeps of a whole sheet is what it keeps of the part
    before the bars, when it rejects bars and the recap texts. *)
Lemma filter_sheet (f : prim -> bool) (log : DailyLog) (c : Ctx) :
  (forall p, is_bar_call p = true -> f p = false) ->
  (forall fill, filter f (recapCalls fill log) = []) ->
  filter f (calls (LogSheet_effect log) c)
  = filter f (sheetHead log ++ gridCalls canvasWidth)%list.
Proof.
  intros Hb Hr. rewrite LogSheet_effect_calls, List.app_assoc.
  rewrite !filter_app, bars_no_grid by exact Hb.
  destruct (all_times log); [rewrite Hr|]; cbn [filter]; now rewrite !List.app_nil_r.
Qed.

(** ** The grid *)

(** C4.  Whatever the daily log, its sheet has exactly 5 horizontal row
    separators, exactly 25 vertical hour ticks, one per hour from 0 to 24,
    and exactly 13 hour labels, one at each even hour: "Mid" at 0, "Noon" at
    12, the hour below 12 and the hour minus 12 above it; odd hours have a
    tick and no label. *)
Theorem grid_is_content_independent (log : DailyLog) (c : Ctx) :
  let out := calls (LogSheet_effect log) c in
  filter is_separator out = map (separator canvasWidth) [0; 1; 2; 3; 4]
  /\ List.length (filter is_separator out) = 5%nat
  /\ map separator_y (filter is_separator out)
     = [of_Z 260; of_Z 310; of_Z 360; of_Z 410; of_Z 460]
  /\ filter is_tick out = map (hourTick canvasWidth) hours0to24
  /\ List.length (filter is_tick out) = 25%nat
  /\ map tick_x (filter is_tick out)
     = map (fun hour => of_Z (240 + 30 * hour)) hours0to24
  /\ filter is_hour_label out = map (hourText canvasWidth) evenHours
  /\ List.length (filter is_hour_label out) = 13%nat
  /\ map text_at (filter is_hour_label out)
     = [ ("Mid", of_Z 230); ("2", of_Z 290); ("4", of_Z 350); ("6", of_Z 410);
         ("8", of_Z 470); ("10", of_Z 530); ("Noon", of_Z 590);
         ("2", of_Z 650); ("4", of_Z 710); ("6", of_Z 770); ("8", of_Z 830);
         ("10", of_Z 890); ("12", of_Z 950) ].
Proof.
  intros out. subst out.
  assert (S : filter is_separator (calls (LogSheet_effect log) c)
              = map (separator canvasWidth) [0; 1; 2; 3; 4]).
  { rewrite filter_sheet; [vm_compute; reflexivity | bar_not | reflexivity]. }
  assert (T : filter is_tick (calls (LogSheet_effect log) c)
              = map (hourTick canvasWidth) hours0to24).
  { rewrite filter_sheet; [vm_compute; reflexivity | bar_not | reflexivity]. }
  assert (L : filter is_hour_label (calls (LogSheet_effect log) c)
              = map (hourText canvasWidth) evenHours).
  { rewrite filter_sheet; [vm_compute; reflexivity | bar_not | reflexivity]. }
  rewrite S, T, L. repeat apply conj; vm_compute; reflexivity.
Qed.

(** ** Absent activities *)

(** C10.  A log whose [activities] field is absent is drawn exactly as the
    same log with an empty list: the bar builder returns without a call, and
    the sheet is drawn completely and has no bar. *)
Theorem absent_activities_as_empty (log : DailyLog)
    (x yStart width rowHeight : number) (c : Ctx) :
  activities log = None ->
  drawDutyStatusTimeline log x yStart width rowHeight c = (Ok tt, c, [])
  /\ LogSheet_effect log c = LogSheet_effect (with_activities (Some []) log) c
  /\ returned (LogSheet_effect log) c = true
  /\ filter is_bar_call (calls (LogSheet_effect log) c) = []
  /\ calls (LogSheet_effect log) c
     = (sheetHead log ++ gridCalls canvasWidth ++ recapCalls "#333" log)%list.
Proof.
  intros H. destruct log as [d o de m acts r]. cbn in H. subst acts.
  assert (E : calls (LogSheet_effect (mkDailyLog d o de m None r)) c
              = (sheetHead (mkDailyLog d o de m None r)
                 ++ gridCalls canvasWidth
                 ++ recapCalls "#333" (mkDailyLog d o de m None r))%list).
  { rewrite LogSheet_effect_calls. reflexivity. }
  repeat apply conj.
  - reflexivity.
  - unfold LogSheet_effect, drawLogSheet, drawDutyStatusTimeline, with_activities.
    reflexivity.
  - now rewrite LogSheet_effect_returned.
  - rewrite E. reflexivity.
  - exact E.
Qed.

(** ** The order of the calls of a sheet *)

Lemma recapCalls_text (fill : string) (log : DailyLog) :
  forallb is_text_call (recapCalls fill log) = true.
Proof. reflexivity. Qed.

(** C7, as the source has it.  A sheet is drawn on a cleared surface in this
    order: the header texts and the four row labels, then the grid (row
    separators, hour ticks and hour labels), then the activity bars, then
    the recap texts; so no bar is drawn before the grid is complete. *)
Theorem sheet_call_order (log : DailyLog) (c : Ctx) :
  exists bars rest : list prim,
    calls (LogSheet_effect log) c
    = (ClearRect 0 0 canvasWidth canvasHeight
       :: (headerCalls canvasWidth log ++ labelCalls "#000" "12px Arial")
       ++ gridCalls canvasWidth ++ bars ++ rest)%list
    /\ forallb is_text_call
         (headerCalls canvasWidth log ++ labelCalls "#000" "12px Arial")
       = true
    /\ forallb is_grid_call (gridCalls canvasWidth) = true
    /\ forallb is_bar_call bars = true
    /\ forallb is_text_call rest = true
    /\ (returned (LogSheet_effect log) c = true ->
        exists fill, rest = recapCalls fill log).
Proof.
  exists (sheetBars (drawn_prefix (activities_or_empty log))).
  exists (if all_times log
          then recapCalls (fill_after (activities_or_empty log) "#333") log
          else []).
  repeat apply conj.
  - now rewrite LogSheet_effect_calls.
  - reflexivity.
  - vm_compute; reflexivity.
  - apply sheetBars_bars.
  - destruct (all_times log); [apply recapCalls_text | reflexivity].
  - rewrite LogSheet_effect_returned. intros ->. eauto.
Qed.

(** ** Times that do not parse *)

Lemma width_not_finite (ts te : number) :
  is_finite ts && is_finite te = false ->
  is_finite
    (timeAxisMapper timelineX te (timelineWidth canvasWidth)
     - timeAxisMapper timelineX ts (timelineWidth canvasWidth))%num = false.
Proof. destruct ts, te; try discriminate; intros _; reflexivity. Qed.

(** C5, as the source has it.  A time string that does not parse to a
    fractional hour raises nothing: when every activity has its two time
    strings the sheet is drawn completely (header, row labels, grid, the bars
    of all the activities, recap), and the two rectangle calls of the
    activity with the unparseable time are issued with a width that is not a
    finite number. *)
Theorem unparseable_time_is_drawn (log : DailyLog) (l : list Activity)
    (a : Activity) (s e : string) (c : Ctx) :
  activities log = Some l -> forallb has_times l = true ->
  In a l -> start a = Some s -> end_ a = Some e ->
  is_finite (timeOf s) && is_finite (timeOf e) = false ->
  returned (LogSheet_effect log) c = true
  /\ calls (LogSheet_effect log) c
     = (sheetHead log ++ gridCalls canvasWidth ++ sheetBars l
        ++ recapCalls (fill_after l "#333") log)%list
  /\ exists (sx y wd : number) (fill : string),
       is_finite wd = false
       /\ In (FillRect sx y wd 48 fill) (calls (LogSheet_effect log) c)
       /\ In (StrokeRect sx y wd 48 "#000" 1) (calls (LogSheet_effect log) c).
Proof.
  intros Hl Hall Hin Hs He Hbad.
  assert (Hacts : activities_or_empty log = l)
    by (unfold activities_or_empty; now rewrite Hl).
  assert (Hat : all_times log = true) by (unfold all_times; now rewrite Hacts).
  assert (E : calls (LogSheet_effect log) c
              = (sheetHead log ++ gridCalls canvasWidth ++ sheetBars l
                 ++ recapCalls (fill_after l "#333") log)%list).
  { rewrite LogSheet_effect_calls, Hat, Hacts.
    now rewrite drawn_prefix_all by exact Hall. }
  split; [now rewrite LogSheet_effect_returned|]. split; [exact E|].
  pose (W := timelineWidth canvasWidth).
  exists (timeAxisMapper timelineX (timeOf s) W),
    (statusYStart + rowIndex (type a) * statusRowHeight - 10)%num,
    (timeAxisMapper timelineX (timeOf e) W
     - timeAxisMapper timelineX (timeOf s) W)%num,
    (barColor (type a)).
  split; [now apply width_not_finite|].
  assert (B : forall p,
             In p (barCalls timelineX statusYStart W statusRowHeight (type a)
                            (timeOf s) (timeOf e)) ->
             In p (calls (LogSheet_effect log) c)).
  { intros p Hp. rewrite E.
    apply in_or_app; right. apply in_or_app; right. apply in_or_app; left.
    unfold sheetBars. apply in_flat_map. exists a. split; [exact Hin|].
    unfold activityCalls. now rewrite Hs, He. }
  split; apply B; [left | right; left]; reflexivity.
Qed.

(** ** A sheet that fails *)

Lemma throw_is_TypeError {A} (m : M A) (c : Ctx) :
  returned m c = false -> outcome_of m c = Throw TypeError.
Proof.
  intros R. destruct (not_returned_outcome _ _ R) as [[] E]. exact E.
Qed.

(** C6, as the source has it.  When drawing a record raises, nothing catches
    the exception: it leaves the effect of [LogSheet] as a [TypeError], the
    sheet keeps its header, row labels, grid and the bars drawn so far and
    has no recap, and the heading and summary of that day are those of the
    same record with any other activities: nothing reports the failure. *)
Theorem failure_is_uncaught (log : DailyLog) (c : Ctx) :
  returned (LogSheet_effect log) c = false ->
  outcome_of (LogSheet_effect log) c = Throw TypeError
  /\ (exists a, In a (activities_or_empty log) /\ has_times a = false)
  /\ calls (LogSheet_effect log) c
     = (sheetHead log ++ gridCalls canvasWidth
        ++ sheetBars (drawn_prefix (activities_or_empty log)))%list
  /\ filter is_text_call (calls (LogSheet_effect log) c)
     = (headerCalls canvasWidth log ++ labelCalls "#000" "12px Arial")%list
  /\ forall (dayNumber : Z) (acts : option (list Activity)),
       LogSheet_view log dayNumber
       = LogSheet_view (with_activities acts log) dayNumber.
Proof.
  intros R.
  assert (Hat : all_times log = false) by now rewrite <- (LogSheet_effect_returned log c).
  assert (E : calls (LogSheet_effect log) c
              = (sheetHead log ++ gridCalls canvasWidth
                 ++ sheetBars (drawn_prefix (activities_or_empty log)))%list).
  { rewrite LogSheet_effect_calls, Hat. now rewrite List.app_nil_r. }
  repeat apply conj.
  - now apply throw_is_TypeError.
  - unfold all_times in Hat.
    destruct (forallb has_times (activities_or_empty log)) eqn:F; [discriminate|].
    apply forallb_forall_false in F. exact F.
  - exact E.
  - rewrite E, !filter_app.
    rewrite (filter_none is_text_call is_bar_call (sheetBars _));
      [| bar_not | apply sheetBars_bars].
    replace (filter is_text_call (gridCalls canvasWidth)) with (@nil prim)
      by (vm_compute; reflexivity).
    cbn [app]. rewrite List.app_nil_r. reflexivity.
  - reflexivity.
Qed.

(** ** One sheet per record *)




(** ** Reading time strings *)











Lemma scale_0 (v : Z) : num_eq (scale v 0) (Fin (inject_Z v)).
Proof. unfold scale, fin, num_eq. rewrite Qred_correct. cbn. ring. Qed.


(** [split] cuts at the first colon. *)
Lemma split_first (s r : string) :
  no_colon s = true -> split ":" (s ++ String ":" r) = s :: split ":" r.
Proof.
  induction s as [|c s IH]; [reflexivity|].
  cbn [no_colon String.append split]. intros [Hc Hs]%andb_prop.
  apply negb_true_iff in Hc. rewrite Hc, (IH Hs). reflexivity.
Qed.

Lemma split_none (s : string) : no_colon s = true -> split ":" s = [s].
Proof.
  induction s as [|c s IH]; [reflexivity|].
  cbn [no_colon split]. intros [Hc Hs]%andb_prop.
  apply negb_true_iff in Hc. rewrite Hc, (IH Hs). reflexivity.
Qed.

Lemma timeOf_two_parts (s t : string) :
  no_colon s = true -> no_colon t = true ->
  timeOf (s ++ ":" ++ t) = (Number s + Number t / 60)%num.
Proof.
  intros Hs Ht. unfold timeOf.
  change (s ++ ":" ++ t) with (s ++ String ":" t).
  now rewrite (split_first s t Hs), (split_none t Ht).
Qed.


(** X2.  Only the first two parts of a time string count: what follows a
    second colon (seconds, for instance) is ignored. *)
Theorem parseTime_ignores_seconds (s t u : string) (c : Ctx) :
  no_colon s = true -> no_colon t = true ->
  parseTime (Some (s ++ ":" ++ t ++ ":" ++ u)) c
  = parseTime (Some (s ++ ":" ++ t)) c.
Proof.
  intros Hs Ht. rewrite !parseTime_string. do 2 f_equal.
  rewrite (timeOf_two_parts s t Hs Ht). unfold timeOf.
  change (s ++ ":" ++ t ++ ":" ++ u) with (s ++ String ":" (t ++ String ":" u)).
  now rewrite (split_first s _ Hs), (split_first t u Ht).
Qed.

(** X3.  A time string without a colon is read as [NaN], digits or not: the
    minutes are missing. *)
Theorem parseTime_without_colon (s : string) (c : Ctx) :
  no_colon s = true -> parseTime (Some s) c = (Ok NaN, c, []).
Proof.
  intros Hs. rewrite parseTime_string. unfold timeOf.
  rewrite (split_none s Hs). cbn [map nth].
  now destruct (Number s).
Qed.

(** ** The bars of a sheet *)

Lemma filter_all {A} (f : A -> bool) (l : list A) :
  forallb f l = true -> filter f l = l.
Proof.
  induction l as [|a r IH]; [reflexivity|].
  cbn. intros [Ha Hr]%andb_prop. now rewrite Ha, IH.
Qed.

Lemma sheet_bar_calls (log : DailyLog) (c : Ctx) :
  filter is_bar_call (calls (LogSheet_effect log) c)
  = sheetBars (drawn_prefix (activities_or_empty log)).
Proof.
  rewrite LogSheet_effect_calls, !filter_app.
  rewrite (filter_all is_bar_call (sheetBars _)) by apply sheetBars_bars.
  replace (filter is_bar_call (sheetHead log)) with (@nil prim) by reflexivity.
  replace (filter is_bar_call (gridCalls canvasWidth)) with (@nil prim)
    by (vm_compute; reflexivity).
  destruct (all_times log); cbn [app filter]; now rewrite List.app_nil_r.
Qed.

Lemma sheetBars_length (l : list Activity) :
  forallb has_times l = true ->
  List.length (sheetBars l) = (2 * List.length l)%nat.
Proof.
  induction l as [|a r IH]; [reflexivity|].
  cbn [forallb]. intros [Ha Hr]%andb_prop.
  unfold sheetBars in *. cbn [flat_map]. rewrite length_app, (IH Hr).
  destruct a as [ty [s|] [e|]]; try discriminate. cbn. lia.
Qed.

(** X4.  When every activity has its two time strings, the rectangles of a
    sheet are those of its activities, two per activity, in the order of the
    list: nothing is merged, dropped or reordered, and the sheet makes
    59 + 2n calls in all. *)
Theorem bars_in_input_order (log : DailyLog) (l : list Activity) (c : Ctx) :
  activities log = Some l -> forallb has_times l = true ->
  filter is_bar_call (calls (LogSheet_effect log) c)
  = flat_map (activityCalls timelineX statusYStart (timelineWidth canvasWidth)
                            statusRowHeight) l
  /\ List.length (filter is_bar_call (calls (LogSheet_effect log) c))
     = (2 * List.length l)%nat
  /\ List.length (calls (LogSheet_effect log) c) = (59 + 2 * List.length l)%nat.
Proof.
  intros Hl Hall.
  assert (Hacts : activities_or_empty log = l)
    by (unfold activities_or_empty; now rewrite Hl).
  assert (Hat : all_times log = true) by (unfold all_times; now rewrite Hacts).
  rewrite sheet_bar_calls, Hacts, drawn_prefix_all by exact Hall.
  split; [reflexivity|]. split; [now apply sheetBars_length|].
  rewrite LogSheet_effect_calls, Hat, Hacts, drawn_prefix_all by exact Hall.
  rewrite !length_app, sheetBars_length by exact Hall.
  replace (List.length (gridCalls canvasWidth)) with 43%nat
    by (vm_compute; reflexivity).
  cbn [sheetHead headerCalls labelCalls recapCalls List.length app]. lia.
Qed.

(** X5.  Whatever its type, a bar of a sheet has its top at y = 260, 360 or
    410 and is 48 high: it lies in the first, third or fourth row, and no bar
    is ever drawn in the second row, between the separators at 310 and
    360. *)
Theorem bars_never_in_second_row (log : DailyLog) (c : Ctx) (p : prim) :
  In p (calls (LogSheet_effect log) c) -> is_bar_call p = true ->
  (rect_y p = of_Z 260 \/ rect_y p = of_Z 360 \/ rect_y p = of_Z 410)
  /\ rect_h p = of_Z 48.
Proof.
  intros Hin Hbar.
  assert (Hp : In p (filter is_bar_call (calls (LogSheet_effect log) c)))
    by (apply filter_In; auto).
  rewrite sheet_bar_calls in Hp. unfold sheetBars in Hp.
  apply in_flat_map in Hp. destruct Hp as (a & _ & Hp).
  destruct a as [ty [s|] [e|]]; try contradiction.
  unfold activityCalls, barCalls in Hp. cbn [start end_ type] in Hp.
  assert (Hrow : rowIndex ty = 0 \/ rowIndex ty = 2 \/ rowIndex ty = 3).
  { unfold rowIndex. destruct (String.eqb ty "driving"); [tauto|].
    destruct (String.eqb ty "on_duty"); tauto. }
  destruct Hp as [<- | [<- | []]]; cbn [rect_y rect_h];
    (split; [|reflexivity]);
    destruct Hrow as [-> | [-> | ->]]; [left | right; left | right; right
                                       | left | right; left | right; right];
    reflexivity.
Qed.


(** ** Drawing again *)

(** X7.  What a sheet draws, and whether it fails, does not depend on the
    state the context is in: the effect sets every style it draws with.
    Drawing the same log again on the context left by a first drawing
    repeats the same calls. *)
Theorem render_independent_of_context (log : DailyLog) (c1 c2 : Ctx) :
  calls (LogSheet_effect log) c1 = calls (LogSheet_effect log) c2
  /\ returned (LogSheet_effect log) c1 = returned (LogSheet_effect log) c2
  /\ calls (LogSheet_effect log) (ctx_after (LogSheet_effect log) c1)
     = calls (LogSheet_effect log) c1.
Proof.
  split; [|split].
  - rewrite !LogSheet_effect_calls. reflexivity.
  - rewrite !LogSheet_effect_returned. reflexivity.
  - rewrite !LogSheet_effect_calls. reflexivity.
Qed.

Lemma fill_after_last (l : list Activity) (a : Activity) (fill : string) :
  fill_after (l ++ [a]) fill = barColor (type a).
Proof. unfold fill_after. now rewrite fold_left_app. Qed.

(** X8.  The recap is written in the fill colour that the bars leave behind:
    the colour of the bar of the last activity when there is one, and the
    grid's "#333" when the list of activities is empty or absent. *)
Theorem recap_colour (log : DailyLog) (c : Ctx) :
  (forall (l : list Activity) (a : Activity),
     activities log = Some (l ++ [a])%list ->
     forallb has_times (l ++ [a]) = true ->
     exists pre : list prim,
       calls (LogSheet_effect log) c
       = (pre ++ recapCalls (barColor (type a)) log)%list
       /\ map text_fill (recapCalls (barColor (type a)) log)
          = repeat (barColor (type a)) 6)
  /\ (activities_or_empty log = [] ->
      exists pre : list prim,
        calls (LogSheet_effect log) c = (pre ++ recapCalls "#333" log)%list
        /\ map text_fill (recapCalls "#333" log) = repeat "#333" 6).
Proof.
  split.
  - intros l a Hl Hall.
    assert (Hacts : activities_or_empty log = (l ++ [a])%list)
      by (unfold activities_or_empty; now rewrite Hl).
    assert (Hat : all_times log = true)
      by (unfold all_times; now rewrite Hacts).
    rewrite LogSheet_effect_calls, Hat, Hacts, fill_after_last.
    exists (sheetHead log ++ gridCalls canvasWidth
            ++ sheetBars (drawn_prefix (l ++ [a])))%list.
    split; [rewrite <- !List.app_assoc; reflexivity | cbn; reflexivity].
  - intros Hacts.
    assert (Hat : all_times log = true)
      by (unfold all_times; now rewrite Hacts).
    rewrite LogSheet_effect_calls, Hat, Hacts.
    exists (sheetHead log ++ gridCalls canvasWidth)%list.
    cbn [drawn_prefix sheetBars flat_map app].
    split; [rewrite <- !List.app_assoc; reflexivity | cbn; reflexivity].
Qed.

(** ** Bars side by side *)


(** X18.  On a sheet every filled rectangle is followed at once by a stroked
    rectangle of the same position and size, one unit wide and "#000": the
    bars come as pairs, also when the drawing stops on an activity without
    times, which leaves no rectangle of its own. *)
Theorem bars_come_in_pairs (log : DailyLog) (c : Ctx) :
  exists geoms : list (number * number * number * string),
    filter is_bar_call (calls (LogSheet_effect log) c)
    = flat_map (fun '(x, y, w, fill) =>
                  [ FillRect x y w 48 fill; StrokeRect x y w 48 "#000" 1 ])
               geoms
    /\ List.length geoms
       = List.length (drawn_prefix (activities_or_empty log)).
Proof.
  rewrite sheet_bar_calls.
  assert (H : forall l, forallb has_times l = true ->
              sheetBars l
              = flat_map (fun '(x, y, w, fill) =>
                            [ FillRect x y w 48 fill;
                              StrokeRect x y w 48 "#000" 1 ])
                         (flat_map bar_geometry l)
              /\ List.length (flat_map bar_geometry l) = List.length l).
  { induction l as [|a r IH]; [split; reflexivity|].
    cbn [forallb]. intros [Ha Hr]%andb_prop.
    destruct (IH Hr) as (E & L).
    unfold sheetBars in *. cbn [flat_map]. rewrite E.
    destruct a as [ty [s|] [e|]]; try discriminate.
    split; [reflexivity|]. cbn [bar_geometry start end_ app List.length].
    now rewrite L. }
  assert (P : forall l, forallb has_times (drawn_prefix l) = true).
  { induction l as [|a r IH]; [reflexivity|].
    cbn [drawn_prefix]. destruct (has_times a) eqn:E; [|reflexivity].
    cbn [forallb]. now rewrite E, IH. }
  destruct (H _ (P (activities_or_empty log))) as (E & L).
  eexists. split; [exact E | exact L].
Qed.

End LogSheets.

(** ** The theorems at the sample records *)



Lemma absent_activities_as_empty_witness :
  activities (with_activities None sampleLog) = None
  /\ returned (LogSheet_effect sampleLocale sampleBig (with_activities None sampleLog)) fresh = true
  /\ filter is_bar_call (calls (LogSheet_effect sampleLocale sampleBig (with_activities None sampleLog)) fresh)
     = [].
Proof.
  split; [reflexivity|].
  destruct (absent_activities_as_empty sampleLocale sampleBig
              (with_activities None sampleLog) timelineX statusYStart
              (timelineWidth canvasWidth) statusRowHeight fresh eq_refl)
    as (_ & _ & R & B & _).
  split; [exact R | exact B].
Defined.

Lemma unparseable_time_is_drawn_witness :
  is_finite (timeOf "abc") && is_finite (timeOf "12:00") = false
  /\ returned (LogSheet_effect sampleLocale sampleBig malformedLog) fresh = true
  /\ exists (sx y wd : number) (fill : string),
       is_finite wd = false
       /\ In (FillRect sx y wd 48 fill) (calls (LogSheet_effect sampleLocale sampleBig malformedLog) fresh).
Proof.
  split; [reflexivity|].
  destruct (unparseable_time_is_drawn sampleLocale sampleBig malformedLog
              [ interval "off_duty" "00:00" "06:00";
                interval "driving" "abc" "12:00" ]
              (interval "driving" "abc" "12:00") "abc" "12:00" fresh
              eq_refl eq_refl (or_intror (or_introl eq_refl))
              eq_refl eq_refl eq_refl)
    as (R & _ & sx & y & wd & fill & W & F & _).
  split; [exact R|]. exists sx, y, wd, fill. split; [exact W | exact F].
Defined.

Lemma failure_is_uncaught_witness :
  returned (LogSheet_effect sampleLocale sampleBig brokenLog) fresh = false
  /\ outcome_of (LogSheet_effect sampleLocale sampleBig brokenLog) fresh = Throw TypeError
  /\ filter is_text_call (calls (LogSheet_effect sampleLocale sampleBig brokenLog) fresh)
     = (headerCalls sampleLocale sampleBig canvasWidth brokenLog
        ++ labelCalls "#000" "12px Arial")%list.
Proof.
  split; [reflexivity|].
  destruct (failure_is_uncaught sampleLocale sampleBig brokenLog fresh eq_refl)
    as (O & _ & _ & T & _).
  split; [exact O | exact T].
Defined.

Lemma sheet_call_order_witness :
  returned (LogSheet_effect sampleLocale sampleBig sampleLog) fresh = true
  /\ exists (bars rest : list prim) (fill : string),
       calls (LogSheet_effect sampleLocale sampleBig sampleLog) fresh
       = (ClearRect 0 0 canvasWidth canvasHeight
          :: (headerCalls sampleLocale sampleBig canvasWidth sampleLog
              ++ labelCalls "#000" "12px Arial")
          ++ gridCalls canvasWidth ++ bars ++ rest)%list
       /\ forallb is_bar_call bars = true
       /\ rest = recapCalls sampleBig fill sampleLog.
Proof.
  split; [reflexivity|].
  destruct (sheet_call_order sampleLocale sampleBig sampleLog fresh)
    as (bars & rest & E & _ & _ & B & _ & Hr).
  destruct (Hr eq_refl) as (fill & F).
  exists bars, rest, fill. split; [exact E|]. split; [exact B | exact F].
Defined.


(** ** Where the source departs from the specification *)

(** C5 does not hold of the source: the start "abc" of the second activity
    of [malformedLog] does not parse, yet drawing the sheet raises nothing,
    makes all its 63 calls, and two of them are rectangles at [NaN]. *)
Lemma malformed_time_counterexample :
  In (interval "driving" "abc" "12:00") (activities_or_empty malformedLog)
  /\ timeOf "abc" = NaN
  /\ fails_before_drawing (LogSheet_effect sampleLocale sampleBig malformedLog) fresh = false
  /\ returned (LogSheet_effect sampleLocale sampleBig malformedLog) fresh = true
  /\ List.length (calls (LogSheet_effect sampleLocale sampleBig malformedLog) fresh) = 63%nat
  /\ nth_error (calls (LogSheet_effect sampleLocale sampleBig malformedLog) fresh) 55
     = Some (FillRect NaN 360 NaN 48 "#e74c3c")
  /\ nth_error (calls (LogSheet_effect sampleLocale sampleBig malformedLog) fresh) 56
     = Some (StrokeRect NaN 360 NaN 48 "#000" 1).
Proof.
  split; [right; left; reflexivity|].
  repeat apply conj; vm_compute; reflexivity.
Qed.

(** C6 does not hold of the source: the second of the three days has an
    activity without [start]; drawing it raises a [TypeError] that nothing
    catches, after 55 calls and before the recap, and the orchestrator and
    the heading treat that day as they treat the others. *)
Lemma failure_isolation_counterexample :
  outcome_of (LogSheet_effect sampleLocale sampleBig brokenLog) fresh = Throw TypeError
  /\ List.length (calls (LogSheet_effect sampleLocale sampleBig brokenLog) fresh) = 55%nat
  /\ filter is_text_call (calls (LogSheet_effect sampleLocale sampleBig brokenLog) fresh)
     = (headerCalls sampleLocale sampleBig canvasWidth brokenLog
        ++ labelCalls "#000" "12px Arial")%list
  /\ LogSheets (Some [sampleLog; brokenLog; sampleLog])
     = Some [ mkElement 0 sampleLog 1; mkElement 1 brokenLog 2;
              mkElement 2 sampleLog 3 ]
  /\ LogSheet_view sampleLocale sampleBig brokenLog 2
     = LogSheet_view sampleLocale sampleBig sampleLog 2
  /\ LogSheet_view sampleLocale sampleBig brokenLog 2
     = mkSheetView "Day 2 - 2024-03-01"
         [ ("Driving Hours:", "13.00 hrs"); ("On Duty Hours:", "1.00 hrs");
           ("Off Duty Hours:", "10.00 hrs"); ("Total Miles:", "1350.00 miles") ].
Proof. repeat apply conj; vm_compute; reflexivity. Qed.

(** C7 does not hold of the source: the calls of the sample sheet are not
    "grid, then bars, then texts"; the first call after the clearing is the
    title of the header, and the first line of the grid is the eleventh
    call. *)
Lemma builder_order_counterexample :
  grid_bars_text_order (calls (LogSheet_effect sampleLocale sampleBig sampleLog) fresh) = false
  /\ nth_error (calls (LogSheet_effect sampleLocale sampleBig sampleLog) fresh) 0
     = Some (ClearRect 0 0 1000 1400)
  /\ nth_error (calls (LogSheet_effect sampleLocale sampleBig sampleLog) fresh) 1
     = Some (FillText "Drivers Daily Log (24 hours)" 40 30 "#000"
                      "bold 16px Arial")
  /\ nth_error (calls (LogSheet_effect sampleLocale sampleBig sampleLog) fresh) 10
     = Some (Stroke [MoveTo 240 260; LineTo 960 260] "#333" 1).
Proof. repeat apply conj; vm_compute; reflexivity. Qed.

(** ** The route map *)

From Stdlib Require Import Lqa Permutation.

Import RouteMap.

Lemma leb_fin (p q : Q) : JSMath.leb (Fin p) (Fin q) = true <-> (p <= q)%Q.
Proof. apply Qle_bool_iff. Qed.

Lemma min_fin (p q : Q) :
  JSMath.min (Fin p) (Fin q) = if Qle_bool p q then Fin p else Fin q.
Proof. reflexivity. Qed.

Lemma max_fin (p q : Q) :
  JSMath.max (Fin p) (Fin q) = if Qle_bool p q then Fin q else Fin p.
Proof. reflexivity. Qed.

Section Folds.

Variable f : Coord -> number.

(** The smallest value of [f] over [l] and [a]. *)
Lemma fold_min_spec (l : list Coord) (a : Q) :
  Forall (fun c => exists q, f c = Fin q) l ->
  exists lo : Q,
    fold_left (fun m c => JSMath.min m (f c)) l (Fin a) = Fin lo
    /\ (lo <= a)%Q
    /\ (forall c, In c l -> JSMath.leb (Fin lo) (f c) = true)
    /\ (lo = a \/ exists c, In c l /\ f c = Fin lo).
Proof.
  intros H. revert a. induction H as [|c r [q Hq] _ IH]; intros a.
  - exists a. cbn. repeat split; [apply Qle_refl | contradiction | now left].
  - cbn [fold_left]. rewrite Hq, min_fin.
    destruct (Qle_bool a q) eqn:E.
    + apply Qle_bool_iff in E.
      destruct (IH a) as (lo & F & La & Lall & Latt).
      exists lo. repeat split; [exact F | exact La | |].
      * intros c' [<- | Hc']; [|now apply Lall].
        rewrite Hq. apply leb_fin. now apply Qle_trans with a.
      * destruct Latt as [-> | (c' & Hc' & E')]; [now left|].
        right. exists c'. split; [now right | exact E'].
    + assert (Hlt : (q <= a)%Q).
      { destruct (Qlt_le_dec q a) as [L|L]; [now apply Qlt_le_weak|].
        apply Qle_bool_iff in L. congruence. }
      destruct (IH q) as (lo & F & La & Lall & Latt).
      exists lo. repeat split; [exact F | now apply Qle_trans with q | |].
      * intros c' [<- | Hc']; [|now apply Lall].
        rewrite Hq. now apply leb_fin.
      * right. destruct Latt as [-> | (c' & Hc' & E')].
        -- exists c. split; [now left | exact Hq].
        -- exists c'. split; [now right | exact E'].
Qed.

(** The largest value of [f] over [l] and [a]. *)
Lemma fold_max_spec (l : list Coord) (a : Q) :
  Forall (fun c => exists q, f c = Fin q) l ->
  exists hi : Q,
    fold_left (fun m c => JSMath.max m (f c)) l (Fin a) = Fin hi
    /\ (a <= hi)%Q
    /\ (forall c, In c l -> JSMath.leb (f c) (Fin hi) = true)
    /\ (hi = a \/ exists c, In c l /\ f c = Fin hi).
Proof.
  intros H. revert a. induction H as [|c r [q Hq] _ IH]; intros a.
  - exists a. cbn. repeat split; [apply Qle_refl | contradiction | now left].
  - cbn [fold_left]. rewrite Hq, max_fin.
    destruct (Qle_bool a q) eqn:E.
    + apply Qle_bool_iff in E.
      destruct (IH q) as (hi & F & La & Lall & Latt).
      exists hi. repeat split; [exact F | now apply Qle_trans with q | |].
      * intros c' [<- | Hc']; [|now apply Lall].
        rewrite Hq. now apply leb_fin.
      * right. destruct Latt as [-> | (c' & Hc' & E')].
        -- exists c. split; [now left | exact Hq].
        -- exists c'. split; [now right | exact E'].
    + assert (Hlt : (q <= a)%Q).
      { destruct (Qlt_le_dec q a) as [L|L]; [now apply Qlt_le_weak|].
        apply Qle_bool_iff in L. congruence. }
      destruct (IH a) as (hi & F & La & Lall & Latt).
      exists hi. repeat split; [exact F | exact La | |].
      * intros c' [<- | Hc']; [|now apply Lall].
        rewrite Hq. apply leb_fin. now apply Qle_trans with a.
      * destruct Latt as [-> | (c' & Hc' & E')]; [now left|].
        right. exists c'. split; [now right | exact E'].
Qed.

End Folds.

(** The four bounds evolve independently. *)
Lemma boundingBox_fold (l : list Coord) (a b c d : number) :
  fold_left
    (fun '(minLat, maxLat, minLng, maxLng) coord =>
       (JSMath.min minLat (at_ coord 0), JSMath.max maxLat (at_ coord 0),
        JSMath.min minLng (at_ coord 1), JSMath.max maxLng (at_ coord 1)))
    l (a, b, c, d)
  = (fold_left (fun m co => JSMath.min m (lat co)) l a,
     fold_left (fun m co => JSMath.max m (lat co)) l b,
     fold_left (fun m co => JSMath.min m (lng co)) l c,
     fold_left (fun m co => JSMath.max m (lng co)) l d).
Proof.
  revert a b c d. induction l as [|co r IH]; intros a b c d; [reflexivity|].
  cbn [fold_left]. apply IH.
Qed.

Lemma finite_lat (l : list Coord) :
  Forall finite_coord l -> Forall (fun c => exists q, lat c = Fin q) l.
Proof. apply Forall_impl. intros c (p & q & Hp & _). eauto. Qed.

Lemma finite_lng (l : list Coord) :
  Forall finite_coord l -> Forall (fun c => exists q, lng c = Fin q) l.
Proof. apply Forall_impl. intros c (p & q & _ & Hq). eauto. Qed.

(** On finite coordinates the loop computes the smallest enclosing box. *)
Lemma boundingBox_box (l : list Coord) :
  l <> [] -> Forall finite_coord l ->
  exists lo hi lo' hi' : Q,
    boundingBox l = (Fin lo, Fin hi, Fin lo', Fin hi')
    /\ box l lo hi lo' hi'.
Proof.
  intros Hne Hfin. destruct l as [|c0 r]; [contradiction|].
  assert (H0 : In c0 (c0 :: r)) by now left.
  inversion Hfin as [|? ? (p0 & q0 & Hp0 & Hq0) _]; subst.
  unfold boundingBox. cbn [nth]. rewrite boundingBox_fold.
  fold (lat c0) (lng c0). rewrite Hp0, Hq0.
  destruct (fold_min_spec lat (c0 :: r) p0 (finite_lat _ Hfin))
    as (lo & -> & _ & Llo & Alo).
  destruct (fold_max_spec lat (c0 :: r) p0 (finite_lat _ Hfin))
    as (hi & -> & _ & Lhi & Ahi).
  destruct (fold_min_spec lng (c0 :: r) q0 (finite_lng _ Hfin))
    as (lo' & -> & _ & Llo' & Alo').
  destruct (fold_max_spec lng (c0 :: r) q0 (finite_lng _ Hfin))
    as (hi' & -> & _ & Lhi' & Ahi').
  exists lo, hi, lo', hi'. split; [reflexivity|].
  repeat split; auto.
  - destruct Alo as [-> | A]; [exists c0; auto | exact A].
  - destruct Ahi as [-> | A]; [exists c0; auto | exact A].
  - destruct Alo' as [-> | A]; [exists c0; auto | exact A].
  - destruct Ahi' as [-> | A]; [exists c0; auto | exact A].
Qed.


(** ** The zoom level *)

Lemma gtb_fin (s k : Q) : JSMath.gtb (Fin s) (Fin k) = true <-> (k < s)%Q.
Proof.
  unfold JSMath.gtb, JSMath.leb. rewrite negb_true_iff.
  split; intros H.
  - destruct (Qlt_le_dec k s) as [L|L]; [exact L|].
    apply Qle_bool_iff in L. congruence.
  - destruct (Qle_bool s k) eqn:E; [|reflexivity].
    apply Qle_bool_iff in E. lra.
Qed.

Lemma gtb_fin_false (s k : Q) : JSMath.gtb (Fin s) (Fin k) = false <-> (s <= k)%Q.
Proof.
  split; intros H.
  - destruct (Qlt_le_dec k s) as [L|L]; [|exact L].
    apply gtb_fin in L. congruence.
  - destruct (JSMath.gtb (Fin s) (Fin k)) eqn:E; [|reflexivity].
    apply gtb_fin in E. lra.
Qed.

Lemma zoom_for_range (s : number) : 4 <= zoom_for s <= 9.
Proof.
  unfold zoom_for.
  repeat match goal with
         | |- context [if ?b then _ else _] => destruct b
         end; lia.
Qed.

(** A wider span never gets a closer zoom. *)
Lemma zoom_for_antitone (s1 s2 : Q) :
  (s1 <= s2)%Q -> zoom_for (Fin s2) <= zoom_for (Fin s1).
Proof.
  intros H. unfold zoom_for.
  change (of_Z 20) with (Fin 20); change (of_Z 10) with (Fin 10);
    change (of_Z 5) with (Fin 5); change (of_Z 2) with (Fin 2);
    change (of_Z 1) with (Fin 1).
  repeat match goal with
         | |- context [JSMath.gtb (Fin ?s) (Fin ?k)] =>
             let E := fresh "E" in
             destruct (JSMath.gtb (Fin s) (Fin k)) eqn:E;
             [apply gtb_fin in E | apply gtb_fin_false in E]
         end; try lia; exfalso; lra.
Qed.

Lemma max_fin_spec (a b : Q) :
  exists m : Q, JSMath.max (Fin a) (Fin b) = Fin m
                /\ (a <= m)%Q /\ (b <= m)%Q /\ (m = a \/ m = b).
Proof.
  rewrite max_fin. destruct (Qle_bool a b) eqn:E.
  - apply Qle_bool_iff in E. exists b. repeat split; auto; lra.
  - exists a. repeat split; auto; try lra.
    destruct (Qlt_le_dec b a) as [L|L]; [lra|].
    apply Qle_bool_iff in L. congruence.
Qed.

(** The zoom of a list with a known box. *)
Lemma calculateZoom_box (l : list Coord) (lo hi lo' hi' : Q) :
  l <> [] -> boundingBox l = (Fin lo, Fin hi, Fin lo', Fin hi') ->
  calculateZoom l
  = zoom_for (JSMath.max (Fin (Qred (hi - lo))) (Fin (Qred (hi' - lo')))).
Proof.
  intros Hne E. destruct l as [|c0 r]; [contradiction|].
  unfold calculateZoom. rewrite E. reflexivity.
Qed.

Lemma boundingBox_app (l l' : list Coord) (a b c d : number) :
  l <> [] -> boundingBox l = (a, b, c, d) ->
  boundingBox (l ++ l')
  = (fold_left (fun m co => JSMath.min m (lat co)) l' a,
     fold_left (fun m co => JSMath.max m (lat co)) l' b,
     fold_left (fun m co => JSMath.min m (lng co)) l' c,
     fold_left (fun m co => JSMath.max m (lng co)) l' d).
Proof.
  intros Hne E. destruct l as [|c0 r]; [contradiction|].
  unfold boundingBox in *. cbn [app nth] in *.
  change (c0 :: (r ++ l')%list) with ((c0 :: r) ++ l')%list.
  rewrite fold_left_app, E. apply boundingBox_fold.
Qed.

(** X10.  The zoom level is always between 4 and 9, and adding coordinates
    to a non-empty route never makes the map zoom in. *)
Theorem calculateZoom_extend :
  (forall l : list Coord, 4 <= calculateZoom l <= 9)
  /\ (forall l l' : list Coord,
        l <> [] -> Forall finite_coord l -> Forall finite_coord l' ->
        calculateZoom (l ++ l') <= calculateZoom l).
Proof.
  split.
  - intros l. unfold calculateZoom. destruct l as [|c0 r]; [lia|].
    destruct (boundingBox (c0 :: r)) as [[[a b] c] d].
    apply zoom_for_range.
  - intros l l' Hne Hfin Hfin'.
    destruct (boundingBox_box l Hne Hfin) as (lo & hi & lo' & hi' & E & _).
    pose proof (boundingBox_app l l' _ _ _ _ Hne E) as E2.
    destruct (fold_min_spec lat l' lo (finite_lat _ Hfin'))
      as (lo2 & F1 & L1 & _).
    destruct (fold_max_spec lat l' hi (finite_lat _ Hfin'))
      as (hi2 & F2 & L2 & _).
    destruct (fold_min_spec lng l' lo' (finite_lng _ Hfin'))
      as (lo2' & F3 & L3 & _).
    destruct (fold_max_spec lng l' hi' (finite_lng _ Hfin'))
      as (hi2' & F4 & L4 & _).
    rewrite F1, F2, F3, F4 in E2.
    rewrite (calculateZoom_box l lo hi lo' hi' Hne E).
    rewrite (calculateZoom_box (l ++ l') lo2 hi2 lo2' hi2');
      [| destruct l; [contradiction | discriminate] | exact E2].
    destruct (max_fin_spec (Qred (hi - lo)) (Qred (hi' - lo')))
      as (m & -> & _ & _ & Hm).
    destruct (max_fin_spec (Qred (hi2 - lo2)) (Qred (hi2' - lo2')))
      as (m2 & -> & M1 & M2 & _).
    apply zoom_for_antitone.
    rewrite Qred_correct in M1, M2.
    destruct Hm as [-> | ->]; rewrite Qred_correct; lra.
Qed.

(** ** The order of the coordinates *)

Lemma box_unique (l : list Coord) (a b c d a2 b2 c2 d2 : Q) :
  box l a b c d -> box l a2 b2 c2 d2 ->
  (a == a2 /\ b == b2 /\ c == c2 /\ d == d2)%Q.
Proof.
  intros (H & (ca & Ia & Ea) & (cb & Ib & Eb) & (cc & Ic & Ec) & (cd & Id & Ed))
         (H2 & (ca2 & Ia2 & Ea2) & (cb2 & Ib2 & Eb2) & (cc2 & Ic2 & Ec2)
          & (cd2 & Id2 & Ed2)).
  assert (forall x y, (x <= y)%Q -> (y <= x)%Q -> (x == y)%Q) as anti
    by (intros; now apply Qle_antisym).
  repeat split; apply anti.
  - destruct (H2 ca Ia) as (L & _). rewrite Ea in L. apply leb_fin in L.
    destruct (H ca2 Ia2) as (L' & _). rewrite Ea2 in L'. apply leb_fin in L'.
    exact L'.
  - destruct (H2 ca Ia) as (L & _). rewrite Ea in L. now apply leb_fin in L.
  - destruct (H2 cb Ib) as (_ & L & _). rewrite Eb in L. now apply leb_fin in L.
  - destruct (H cb2 Ib2) as (_ & L & _). rewrite Eb2 in L. now apply leb_fin in L.
  - destruct (H cc2 Ic2) as (_ & _ & L & _). rewrite Ec2 in L. now apply leb_fin in L.
  - destruct (H2 cc Ic) as (_ & _ & L & _). rewrite Ec in L. now apply leb_fin in L.
  - destruct (H2 cd Id) as (_ & _ & _ & L). rewrite Ed in L. now apply leb_fin in L.
  - destruct (H cd2 Id2) as (_ & _ & _ & L). rewrite Ed2 in L. now apply leb_fin in L.
Qed.

Lemma box_permutation (l l' : list Coord) (a b c d : Q) :
  Permutation l l' -> box l a b c d -> box l' a b c d.
Proof.
  intros P (H & (ca & Ia & Ea) & (cb & Ib & Eb) & (cc & Ic & Ec) & (cd & Id & Ed)).
  assert (forall x, In x l -> In x l') as to by (intros x; now apply Permutation_in).
  assert (forall x, In x l' -> In x l) as from
    by (intros x; apply Permutation_in; now apply Permutation_sym).
  split; [intros x Hx; now apply H, from|].
  repeat split; eauto.
Qed.

(** X11.  The centre and the zoom of the map do not depend on the order in
    which the coordinates come. *)
Theorem center_zoom_permutation (l l' : list Coord) :
  Permutation l l' -> Forall finite_coord l ->
  calculateCenter l = calculateCenter l' /\ calculateZoom l = calculateZoom l'.
Proof.
  intros P Hfin.
  destruct l as [|c0 r].
  { apply Permutation_nil in P. subst. split; reflexivity. }
  assert (Hne : c0 :: r <> []) by discriminate.
  assert (Hne' : l' <> []).
  { intros ->. apply Permutation_sym, Permutation_nil in P. discriminate. }
  assert (Hfin' : Forall finite_coord l').
  { apply Forall_forall. intros x Hx.
    apply (proj1 (Forall_forall _ _) Hfin).
    apply Permutation_in with l'; [now apply Permutation_sym | exact Hx]. }
  destruct (boundingBox_box _ Hne Hfin) as (a & b & c & d & E & B).
  destruct (boundingBox_box _ Hne' Hfin') as (a2 & b2 & c2 & d2 & E2 & B2).
  destruct (box_unique l' a b c d a2 b2 c2 d2 (box_permutation _ _ _ _ _ _ P B) B2)
    as (Ha & Hb & Hc & Hd).
  assert (S1 : Qred (b - a) = Qred (b2 - a2))
    by (apply Qred_complete; now rewrite Ha, Hb).
  assert (S2 : Qred (d - c) = Qred (d2 - c2))
    by (apply Qred_complete; now rewrite Hc, Hd).
  assert (M1 : Qred (a + b) = Qred (a2 + b2))
    by (apply Qred_complete; now rewrite Ha, Hb).
  assert (M2 : Qred (c + d) = Qred (c2 + d2))
    by (apply Qred_complete; now rewrite Hc, Hd).
  split.
  - unfold calculateCenter. rewrite E.
    destruct l' as [|c0' r']; [contradiction|]. rewrite E2.
    cbn [nadd ndiv of_Z]. unfold fin. now rewrite M1, M2.
  - rewrite (calculateZoom_box _ _ _ _ _ Hne E).
    rewrite (calculateZoom_box _ _ _ _ _ Hne' E2).
    now rewrite S1, S2.
Qed.

(** ** Segment markers *)

(** X12.  The marker of a segment is put on one of the segment's own
    coordinates: the middle one (index [floor(n / 2)]) for a driving segment,
    the first one for a stop; a segment without coordinates has no
    marker. *)
Theorem getSegmentCoordinates_member (segment : Segment.t) :
  (forall cs : list Coord,
     Segment.coordinates segment = Some cs -> cs <> [] ->
     exists p : Coord,
       getSegmentCoordinates segment = Some p /\ In p cs
       /\ ((Segment.type segment = "drive_to_pickup"
            \/ Segment.type segment = "drive_to_dropoff") ->
           nth_error cs (List.length cs / 2) = Some p)
       /\ (Segment.type segment <> "drive_to_pickup" ->
           Segment.type segment <> "drive_to_dropoff" ->
           nth_error cs 0 = Some p))
  /\ ((Segment.coordinates segment = None
       \/ Segment.coordinates segment = Some []) ->
      getSegmentCoordinates segment = None).
Proof.
  split.
  - intros cs Hcs Hne. unfold getSegmentCoordinates. rewrite Hcs.
    destruct cs as [|c0 r]; [contradiction|].
    assert (Hmid : (List.length (c0 :: r) / 2 < List.length (c0 :: r))%nat)
      by (apply Nat.div_lt; cbn; lia).
    destruct (String.eqb_spec (Segment.type segment) "drive_to_pickup") as [E1|N1];
      [|destruct (String.eqb_spec (Segment.type segment) "drive_to_dropoff")
          as [E2|N2]]; cbn [orb].
    + eexists. split; [reflexivity|]. split; [now apply nth_In|].
      split; [intros _; now apply nth_error_nth'|]. intros N; contradiction.
    + eexists. split; [reflexivity|]. split; [now apply nth_In|].
      split; [intros _; now apply nth_error_nth'|]. intros _ N; contradiction.
    + exists c0. split; [reflexivity|]. split; [now left|].
      split; [intros [E|E]; contradiction | reflexivity].
  - intros [H|H]; unfold getSegmentCoordinates; now rewrite H.
Qed.

(** ** The three locations *)

(** Nothing, or a pair of numbers. *)
Definition pair_or_none (o : option Coord) : Prop :=
  o = None \/ exists a b : number, o = Some [a; b].

Definition some_pair (o : option Coord) : Prop :=
  exists a b : number, o = Some [a; b].

Lemma pair_if_valid_pair (c : Coord) : pair_or_none (pair_if_valid c).
Proof.
  unfold pair_if_valid. destruct (is_pair c); [right | now left].
  unfold pair_of. eauto.
Qed.

Lemma from_key_location_pair (o : option KeyLocation.t) :
  pair_or_none (from_key_location o).
Proof.
  unfold from_key_location. destruct (coordinates_of o) as [c|]; [|now left].
  apply pair_if_valid_pair.
Qed.

Lemma or_else_pair (o d : option Coord) :
  pair_or_none o -> pair_or_none d -> pair_or_none (or_else o d).
Proof.
  intros [-> | (a & b & ->)] Hd; [exact Hd|].
  right. exists a, b. reflexivity.
Qed.

Lemma or_else_default (o : option Coord) (d : Coord) :
  pair_or_none o -> some_pair (Some d) -> some_pair (or_else o (Some d)).
Proof.
  intros [-> | (a & b & ->)] Hd; [exact Hd|].
  exists a, b. reflexivity.
Qed.

Lemma match_pair (o : option (list Coord)) (f : list Coord -> option Coord)
    (d : option Coord) :
  (forall cs, pair_or_none (f cs)) -> pair_or_none d ->
  pair_or_none (match o with Some cs => f cs | None => d end).
Proof. intros Hf Hd. destruct o; auto. Qed.

Lemma defaults_pairs :
  some_pair (Some default_current) /\ some_pair (Some default_pickup)
  /\ some_pair (Some default_dropoff).
Proof. repeat apply conj; eexists; eexists; reflexivity. Qed.

(** X13.  Whatever the route data, the three locations come out defined, each
    as a pair of numbers; a pair sent by the backend in [key_locations] is
    used as it is, before any coordinate of a segment or default. *)
Theorem getLocationCoordinates_total (routeData : RouteData) :
  (exists a b c d e f : number,
     getLocationCoordinates routeData
     = mkLocationCoords (Some [a; b]) (Some [c; d]) (Some [e; f]))
  /\ (forall (kl : KeyLocations.t) (k : KeyLocation.t) (x y : number)
             (rest : Coord),
        key_locations routeData = Some kl ->
        KeyLocation.coordinates k = Some (x :: y :: rest) ->
        (KeyLocations.current kl = Some k ->
         current (getLocationCoordinates routeData) = Some [x; y])
        /\ (KeyLocations.pickup kl = Some k ->
            pickup (getLocationCoordinates routeData) = Some [x; y])
        /\ (KeyLocations.dropoff kl = Some k ->
            dropoff (getLocationCoordinates routeData) = Some [x; y])).
Proof.
  destruct defaults_pairs as (D1 & D2 & D3).
  split.
  - assert (H : some_pair (current (getLocationCoordinates routeData))
                /\ some_pair (pickup (getLocationCoordinates routeData))
                /\ some_pair (dropoff (getLocationCoordinates routeData))).
    { unfold getLocationCoordinates.
      destruct (key_locations routeData) as [kl|];
        destruct (segments routeData) as [[|s0 segs]|];
        cbn [current pickup dropoff];
        repeat split;
        repeat (first [ apply or_else_default | apply or_else_pair
                      | apply match_pair; [intros ?|]
                      | apply pair_if_valid_pair
                      | apply from_key_location_pair
                      | assumption | now left ]). }
    destruct H as ((a & b & Ha) & (c & d & Hc) & (e & f & He)).
    exists a, b, c, d, e, f.
    destruct (getLocationCoordinates routeData) as [x y z].
    cbn in Ha, Hc, He. now subst.
  - intros kl k x y rest Hkl Hk.
    unfold getLocationCoordinates. rewrite Hkl.
    repeat split; intros E;
      destruct (segments routeData) as [[|s0 segs]|];
      cbn [current pickup dropoff]; unfold from_key_location, coordinates_of;
      rewrite E, Hk; reflexivity.
Qed.

(** ** What is put on the map *)

Definition named (locations : option Locations) (f : Locations -> option string)
  : bool :=
  match locations with Some l => truthy (f l) | None => false end.

(** X14.  The map is drawn exactly when the route data has segments.  It
    then always carries the marker of the current location, and the markers
    of the pickup and of the dropoff exactly when their names are non-empty;
    there is one marker slot per segment, and the route line is drawn exactly
    when there are map coordinates. *)
Theorem RouteMap_markers (routeData : RouteData) (locations : option Locations) :
  RouteMap.RouteMap None locations = None
  /\ (segments routeData = None ->
      RouteMap.RouteMap (Some routeData) locations = None)
  /\ (forall segs : list Segment.t,
        segments routeData = Some segs ->
        exists v : MapView,
          RouteMap.RouteMap (Some routeData) locations = Some v
          /\ currentMarker v = current (getLocationCoordinates routeData)
          /\ some_pair (currentMarker v)
          /\ pickupMarker v
             = (if named locations loc_pickup
                then pickup (getLocationCoordinates routeData) else None)
          /\ dropoffMarker v
             = (if named locations loc_dropoff
                then dropoff (getLocationCoordinates routeData) else None)
          /\ List.length (segmentMarkers v) = List.length segs
          /\ (polyline v = None <-> getMapCoordinates routeData = [])).
Proof.
  split; [reflexivity|]. split.
  - intros H. unfold RouteMap.RouteMap. now rewrite H.
  - intros segs H. unfold RouteMap.RouteMap. rewrite H.
    eexists. split; [reflexivity|]. cbn [currentMarker pickupMarker
      dropoffMarker segmentMarkers polyline].
    destruct (getLocationCoordinates_total routeData)
      as ((a & b & c & d & e & f & E) & _).
    rewrite E. cbn [current pickup dropoff].
    split; [reflexivity|]. split; [exists a, b; reflexivity|].
    split; [unfold named; destruct locations as [l|];
            [destruct (truthy (loc_pickup l))|]; reflexivity|].
    split; [unfold named; destruct locations as [l|];
            [destruct (truthy (loc_dropoff l))|]; reflexivity|].
    split; [apply length_map|].
    destruct (getMapCoordinates routeData); split; congruence.
Qed.

(** ** The coordinates of the route line *)

Lemma valid_pairs_length (cs : list Coord) :
  Forall (fun c => List.length c = 2%nat)
         (flat_map (fun coord => if is_pair coord then [pair_of coord] else [])
                   cs).
Proof.
  induction cs as [|c r IH]; [constructor|].
  cbn [flat_map]. apply Forall_app. split; [|exact IH].
  destruct (is_pair c); repeat constructor.
Qed.

(** X15.  The coordinates taken from the segments are pairs, in the order of
    the segments; as soon as there is one, the key locations of the backend
    are not used for the route line. *)
Theorem getMapCoordinates_segments_first (routeData : RouteData) :
  Forall (fun c => List.length c = 2%nat)
         (getMapCoordinates (without_key_locations routeData))
  /\ (getMapCoordinates (without_key_locations routeData) <> [] ->
      getMapCoordinates routeData
      = getMapCoordinates (without_key_locations routeData)).
Proof.
  unfold getMapCoordinates, without_key_locations.
  cbn [segments key_locations].
  destruct (segments routeData) as [segs|]; [|split; [constructor | reflexivity]].
  set (coordinates := flat_map _ segs).
  assert (P : Forall (fun c => List.length c = 2%nat) coordinates).
  { subst coordinates. induction segs as [|s r IH]; [constructor|].
    cbn [flat_map]. apply Forall_app. split; [|exact IH].
    destruct (Segment.coordinates s) as [[|c0 cs]|]; try constructor.
    apply valid_pairs_length. }
  destruct coordinates as [|c0 cs]; split; try assumption.
  - intros N; contradiction.
  - intros _. reflexivity.
Qed.

(** ** Coordinates that are too short *)

Section Poison.

Variable f : Coord -> number.

Lemma min_nan_l (b : number) : JSMath.min NaN b = NaN.
Proof. reflexivity. Qed.

Lemma min_nan_r (a : number) : JSMath.min a NaN = NaN.
Proof. now destruct a. Qed.

Lemma max_nan_r (a : number) : JSMath.max a NaN = NaN.
Proof. now destruct a. Qed.

Lemma fold_min_nan (l : list Coord) :
  fold_left (fun m c => JSMath.min m (f c)) l NaN = NaN.
Proof. induction l as [|c r IH]; [reflexivity | exact IH]. Qed.

Lemma fold_max_nan (l : list Coord) :
  fold_left (fun m c => JSMath.max m (f c)) l NaN = NaN.
Proof. induction l as [|c r IH]; [reflexivity | exact IH]. Qed.

Lemma fold_min_poison (l : list Coord) (a : number) (c : Coord) :
  In c l -> f c = NaN ->
  fold_left (fun m c => JSMath.min m (f c)) l a = NaN.
Proof.
  intros Hin Hc. revert a. induction l as [|c' r IH]; intros a; [contradiction|].
  cbn [fold_left]. destruct Hin as [-> | Hin].
  - rewrite Hc, min_nan_r. apply fold_min_nan.
  - now apply IH.
Qed.

Lemma fold_max_poison (l : list Coord) (a : number) (c : Coord) :
  In c l -> f c = NaN ->
  fold_left (fun m c => JSMath.max m (f c)) l a = NaN.
Proof.
  intros Hin Hc. revert a. induction l as [|c' r IH]; intros a; [contradiction|].
  cbn [fold_left]. destruct Hin as [-> | Hin].
  - rewrite Hc, max_nan_r. apply fold_max_nan.
  - now apply IH.
Qed.

End Poison.

(** X16.  One coordinate with fewer than two entries among the map
    coordinates is enough for the longitude of the centre to be [NaN] and for
    the zoom to be 9, whatever the other coordinates are. *)
Theorem short_coordinate_poisons (l : list Coord) (c : Coord) :
  In c l -> (List.length c < 2)%nat ->
  lng (calculateCenter l) = NaN /\ calculateZoom l = 9.
Proof.
  intros Hin Hlen.
  assert (Hc : lng c = NaN).
  { unfold lng, at_. destruct c as [|x [|y r]]; [reflexivity | reflexivity|].
    cbn in Hlen. lia. }
  assert (E : exists a b, boundingBox l = (a, b, NaN, NaN)).
  { unfold boundingBox. rewrite boundingBox_fold.
    rewrite (fold_min_poison lng l _ c Hin Hc).
    rewrite (fold_max_poison lng l _ c Hin Hc). eauto. }
  destruct E as (a & b & E).
  destruct l as [|c0 r]; [contradiction|].
  unfold calculateCenter, calculateZoom. rewrite E. split; [reflexivity|].
  now rewrite max_nan_r.
Qed.

(** ** The properties at the sample records *)



Lemma parseTime_ignores_seconds_witness :
  parseTime (Some "06:30:00") fresh = parseTime (Some "06:30") fresh.
Proof. exact (parseTime_ignores_seconds "06" "30" "00" fresh eq_refl eq_refl). Defined.

Lemma parseTime_without_colon_witness :
  parseTime (Some "0630") fresh = (Ok NaN, fresh, []).
Proof. exact (parseTime_without_colon "0630" fresh eq_refl). Defined.

Lemma bars_in_input_order_witness :
  List.length (calls (LogSheet_effect sampleLocale sampleBig sampleLog) fresh)
  = 69%nat.
Proof.
  destruct (bars_in_input_order sampleLocale sampleBig sampleLog
              [ interval "off_duty" "00:00" "06:00";
                interval "driving" "06:00" "12:00";
                interval "on_duty" "12:00" "13:00";
                interval "driving" "13:00" "20:00";
                interval "off_duty" "20:00" "24:00" ]
              fresh eq_refl eq_refl) as (_ & _ & L).
  exact L.
Defined.

Lemma sleeper_bar_is_drawn :
  nth_error (calls (LogSheet_effect sampleLocale sampleBig sleeperLog) fresh) 55
  = Some (FillRect 360 260 240 48 "#3498db").
Proof. vm_compute; reflexivity. Qed.

Lemma bars_never_in_second_row_witness :
  rect_y (FillRect 360 260 240 48 "#3498db") = of_Z 260
  \/ rect_y (FillRect 360 260 240 48 "#3498db") = of_Z 360
  \/ rect_y (FillRect 360 260 240 48 "#3498db") = of_Z 410.
Proof.
  exact (proj1 (bars_never_in_second_row sampleLocale sampleBig sleeperLog fresh
                  (FillRect 360 260 240 48 "#3498db")
                  (nth_error_In _ _ sleeper_bar_is_drawn) eq_refl)).
Defined.


Lemma recap_colour_witness :
  (exists pre : list prim,
     calls (LogSheet_effect sampleLocale sampleBig sampleLog) fresh
     = (pre ++ recapCalls sampleBig "#3498db" sampleLog)%list)
  /\ (exists pre : list prim,
        calls (LogSheet_effect sampleLocale sampleBig
                               (with_activities None sampleLog)) fresh
        = (pre ++ recapCalls sampleBig "#333"
                             (with_activities None sampleLog))%list).
Proof.
  split.
  - destruct (recap_colour sampleLocale sampleBig sampleLog fresh) as (H & _).
    destruct (H [ interval "off_duty" "00:00" "06:00";
                  interval "driving" "06:00" "12:00";
                  interval "on_duty" "12:00" "13:00";
                  interval "driving" "13:00" "20:00" ]
                (interval "off_duty" "20:00" "24:00") eq_refl eq_refl)
      as (pre & E & _).
    exists pre. exact E.
  - destruct (recap_colour sampleLocale sampleBig
                           (with_activities None sampleLog) fresh) as (_ & H).
    destruct (H eq_refl) as (pre & E & _).
    exists pre. exact E.
Defined.


Lemma sample_points_finite :
  Forall finite_coord [point 40 (-74); point 42 (-76)]
  /\ Forall finite_coord [point 50 (-100)].
Proof.
  split; repeat constructor; eexists; eexists; split; reflexivity.
Qed.


Lemma calculateZoom_extend_witness :
  calculateZoom ([point 40 (-74); point 42 (-76)] ++ [point 50 (-100)])
  <= calculateZoom [point 40 (-74); point 42 (-76)].
Proof.
  destruct sample_points_finite as (F & F').
  destruct calculateZoom_extend as (_ & H).
  assert (N : [point 40 (-74); point 42 (-76)] <> []) by discriminate.
  exact (H _ _ N F F').
Defined.

Lemma center_zoom_permutation_witness :
  calculateCenter [point 40 (-74); point 42 (-76)]
  = calculateCenter [point 42 (-76); point 40 (-74)].
Proof.
  destruct sample_points_finite as (F & _).
  exact (proj1 (center_zoom_permutation _ _ (perm_swap _ _ []) F)).
Defined.

Lemma getSegmentCoordinates_member_witness :
  exists p : Coord,
    getSegmentCoordinates (nth 0 sampleSegments (Segment.mk "" None)) = Some p
    /\ In p [point 40 (-74); point 41 (-75); point 42 (-76)].
Proof.
  destruct (getSegmentCoordinates_member
              (nth 0 sampleSegments (Segment.mk "" None))) as (H & _).
  assert (N : [point 40 (-74); point 41 (-75); point 42 (-76)] <> [])
    by discriminate.
  destruct (H [point 40 (-74); point 41 (-75); point 42 (-76)] eq_refl N)
    as (p & E & I & _).
  exists p. split; [exact E | exact I].
Defined.

Lemma getLocationCoordinates_total_witness :
  dropoff (getLocationCoordinates
             (mkRouteData (Some sampleSegments) (Some sampleKeyLocations)))
  = Some [of_Z 3; of_Z 4].
Proof.
  destruct (getLocationCoordinates_total
              (mkRouteData (Some sampleSegments) (Some sampleKeyLocations)))
    as (_ & H).
  destruct (H sampleKeyLocations (KeyLocation.mk (Some (point 3 4)))
              (of_Z 3) (of_Z 4) [] eq_refl eq_refl) as (_ & _ & D).
  exact (D eq_refl).
Defined.

Lemma RouteMap_markers_witness :
  exists v : MapView,
    RouteMap.RouteMap (Some sampleRoute) (Some sampleNames) = Some v
    /\ some_pair (currentMarker v)
    /\ pickupMarker v = None
    /\ List.length (segmentMarkers v) = 4%nat.
Proof.
  destruct (RouteMap_markers sampleRoute (Some sampleNames)) as (_ & _ & H).
  destruct (H sampleSegments eq_refl) as (v & E & _ & C & P & _ & L & _).
  exists v. split; [exact E|]. split; [exact C|]. split; [exact P | exact L].
Defined.

Lemma getMapCoordinates_segments_first_witness :
  getMapCoordinates (mkRouteData (Some sampleSegments) (Some sampleKeyLocations))
  = getMapCoordinates sampleRoute.
Proof.
  destruct (getMapCoordinates_segments_first
              (mkRouteData (Some sampleSegments) (Some sampleKeyLocations)))
    as (_ & H).
  apply H. discriminate.
Defined.

Lemma short_coordinate_poisons_witness :
  lng (calculateCenter [[of_Z 1]; point 3 4]) = NaN
  /\ calculateZoom [[of_Z 1]; point 3 4] = 9.
Proof.
  apply (short_coordinate_poisons [[of_Z 1]; point 3 4] [of_Z 1]);
    [left; reflexivity | cbn; lia].
Defined.
